(** * ntuvb-allstar: the voting core of [voting.py]

    A shallow embedding of the request handlers and helpers of
    [src/voting.py] over an explicit model of the ndb datastore and the
    task queue, followed by the properties of the vote transaction, the
    ballot check, the voter registry and the e-mail rate limiter. *)

From Stdlib Require Import ZArith String Ascii List Lia Permutation.
From stdpp Require Import base gmap strings list fin_maps sorting.

Local Open Scope string_scope.
Local Open Scope Z_scope.

(** ** Keys

    ndb keys are paths of (kind, id) pairs.  Only three shapes occur in
    [voting.py]; each is written as the tuple of the ids along its path, so
    that [key.parent()] is a projection.

    - an Election key is its integer id;
    - a Position key is (election id, position id);
    - a Candidate key is (position key, candidate id);
    - a VotingUser key is (election id, student id), as built by
      [ndb.Key(VotingUser, student_id, parent=election_key)]. *)

Abbreviation ElectionKey := Z (only parsing).
Abbreviation PositionKey := (Z * Z)%type (only parsing).
Abbreviation CandidateKey := (Z * Z * Z)%type (only parsing).
Abbreviation VotingUserKey := (Z * string)%type (only parsing).

(** ** Entities

    [models.py] is not part of the sources at hand; the records carry the
    properties that [voting.py] reads and writes. *)

Record Election := mkElection { title : string }.

Record Position := mkPosition { votes_per_person : Z }.

Record Candidate := mkCandidate { num_votes : Z }.

Record VotingUser := mkVotingUser {
  student_id : string;
  token : string;
  voted : bool;
  votes : list CandidateKey;
  email_count : Z;
  create_time : Z;                 (* microseconds on the server clock *)
  last_time_mail_sent : option Z
}.

(** A task of the ['mail-queue'] queue: the parameters that
    [_send_voting_email] fills into the templates of the message. *)
Record Task := mkTask {
  task_to : string;
  task_from : string;
  task_subject_title : string;
  task_student_id : string;
  task_voting_link : string
}.

(** ** The store: the datastore tables and the task queue *)

Record Store := mkStore {
  elections : gmap Z Election;
  positions : gmap (Z * Z) Position;
  candidates : gmap (Z * Z * Z) Candidate;
  voting_users : gmap (Z * string) VotingUser;
  mail_queue : list Task
}.

Definition set_candidates (cs : gmap (Z * Z * Z) Candidate) (s : Store) : Store :=
  mkStore (elections s) (positions s) cs (voting_users s) (mail_queue s).

Definition set_voting_users (us : gmap (Z * string) VotingUser) (s : Store) : Store :=
  mkStore (elections s) (positions s) (candidates s) us (mail_queue s).

Definition set_mail_queue (q : list Task) (s : Store) : Store :=
  mkStore (elections s) (positions s) (candidates s) (voting_users s) q.

(** ** Exceptions and the handler monad *)

Inductive exn :=
| Exception (msg : string)
| ValueError (msg : string)
| AttributeError                      (* attribute access on [None] *)
| HTTPException (code : Z) (description : string).   (* flask [abort] *)

Inductive result (A : Type) :=
| Return (a : A)
| Raise (e : exn).
Arguments Return {A} a.
Arguments Raise {A} e.

(** A computation reads and writes the store and returns or raises; the
    store that comes with [Raise] holds the writes made before the raise. *)
Definition M (A : Type) : Type := Store -> result A * Store.

Definition ret {A} (a : A) : M A := fun s => (Return a, s).

Definition raise {A} (e : exn) : M A := fun s => (Raise e, s).

Definition bind {A B} (m : M A) (k : A -> M B) : M B :=
  fun s => match m s with
           | (Return a, s') => k a s'
           | (Raise e, s') => (Raise e, s')
           end.

Notation "'do' x <- m ; k" := (bind m (fun x => k))
  (at level 10, x pattern, m at level 100, k at level 200).
Notation "m ;; k" := (bind m (fun _ => k))
  (at level 100, k at level 200, right associativity).

(** [try: m except Exception: h] -- every exception of the model derives
    from [Exception]. *)
Definition try_except {A} (m : M A) (h : exn -> M A) : M A :=
  fun s => match m s with
           | (Return a, s') => (Return a, s')
           | (Raise e, s') => h e s'
           end.

(** [@ndb.transactional]: the writes of the body are committed when it
    returns and dropped when it raises.  Requests are taken one at a time,
    so no commit conflicts and the [retries] are never used. *)
Definition transactional {A} (body : M A) : M A :=
  fun s => match body s with
           | (Return a, s') => (Return a, s')
           | (Raise e, _) => (Raise e, s)
           end.

(** ** Datastore primitives *)

Definition get_voting_user (k : VotingUserKey) : M (option VotingUser) :=
  fun s => (Return (voting_users s !! k), s).

Definition put_voting_user (k : VotingUserKey) (u : VotingUser) : M unit :=
  fun s => (Return tt, set_voting_users (<[k := u]> (voting_users s)) s).

Definition get_election (k : ElectionKey) : M (option Election) :=
  fun s => (Return (elections s !! k), s).

Definition get_position (k : PositionKey) : M (option Position) :=
  fun s => (Return (positions s !! k), s).

Definition queue_add (t : Task) : M unit :=
  fun s => (Return tt, set_mail_queue (mail_queue s ++ [t]) s).

(** ** [str.lower] on byte strings *)

Definition lower_ascii (c : ascii) : ascii :=
  let n := nat_of_ascii c in
  if (65 <=? n)%nat && (n <=? 90)%nat then ascii_of_nat (n + 32) else c.

Fixpoint lower (s : string) : string :=
  match s with
  | EmptyString => EmptyString
  | String c s' => String (lower_ascii c) (lower s')
  end.

(** ** The voter registry: [_get_or_create_voting_user] *)

(** Modelled from the spec: the defaults of the [VotingUser] model of
    [models.py], which is not among the sources.  A new voter has not
    voted, holds no votes, has zeroed e-mail counters and is stamped with
    the time of creation. *)
Definition new_VotingUser (sid tok : string) (now : Z) : VotingUser :=
  mkVotingUser sid tok false [] 0 now None.

(** [election_key] is the key decoded from the url-safe string ([ndb.Key]
    never yields [None], so the first guard of the source cannot fire);
    [now] is the clock and [uuid] the value of [uuid.uuid4().hex], both
    read only when a voter is created. *)
Definition _get_or_create_voting_user
    (election_key : ElectionKey) (sid : string) (now : Z) (uuid : string)
  : M (VotingUserKey * VotingUser) :=
  transactional (
    if negb (String.eqb sid (lower sid)) then
      raise (Exception "Student ID should be lower case")
    else
      let voting_user_key := (election_key, sid) in
      do voting_user <- get_voting_user voting_user_key;
      match voting_user with
      | Some u => ret (voting_user_key, u)
      | None =>
          let u := new_VotingUser sid uuid now in
          put_voting_user voting_user_key u ;;
          ret (voting_user_key, u)
      end).

(** [VotingUser.query(VotingUser.token == token).get()]: the first voter
    holding the token, [None] when there is none.  When several voters hold
    it, the one returned is the first in the enumeration of the table. *)
Definition _get_user_from_token (tok : string)
  : M (option (VotingUserKey * VotingUser)) :=
  fun s => (Return (List.find (fun kv => String.eqb (token (snd kv)) tok)
                              (map_to_list (voting_users s))), s).

(** ** The vote transaction: [_do_vote] *)

(** [ndb.get_multi]: one entity instance per key, [None] for a key without
    entity.  Within one call the same key yields the same instance, so the
    result is a list of references ([fetch]) into a table of instances
    ([instances_of]). *)
Definition fetch (cs : gmap (Z * Z * Z) Candidate) (keys : list CandidateKey)
  : list (option CandidateKey) :=
  map (fun k => match cs !! k with
                | Some _ => Some k
                | None => None
                end) keys.

Definition instances_of (cs : gmap (Z * Z * Z) Candidate) (keys : list CandidateKey)
  : gmap (Z * Z * Z) Candidate :=
  foldr (fun k m => match cs !! k with
                    | Some c => <[k := c]> m
                    | None => m
                    end) ∅ keys.

Definition get_multi (keys : list CandidateKey)
  : M (list (option CandidateKey) * gmap (Z * Z * Z) Candidate) :=
  fun s => (Return (fetch (candidates s) keys, instances_of (candidates s) keys), s).

Definition add_vote (c : Candidate) : Candidate := mkCandidate (num_votes c + 1).

(** [for candidate in candidates: candidate.num_votes = candidate.num_votes + 1] *)
Fixpoint count_votes (refs : list (option CandidateKey))
    (instances : gmap (Z * Z * Z) Candidate) : result (gmap (Z * Z * Z) Candidate) :=
  match refs with
  | [] => Return instances
  | None :: _ => Raise AttributeError
  | Some k :: rest => count_votes rest (alter add_vote k instances)
  end.

(** [ndb.put_multi(candidates)] *)
Definition write_back (instances cs : gmap (Z * Z * Z) Candidate)
    (refs : list (option CandidateKey)) : gmap (Z * Z * Z) Candidate :=
  foldl (fun m r => match r with
                    | Some k => match instances !! k with
                                | Some c => <[k := c]> m
                                | None => m
                                end
                    | None => m
                    end) cs refs.

Definition put_multi (refs : list (option CandidateKey))
    (instances : gmap (Z * Z * Z) Candidate) : M unit :=
  fun s => (Return tt, set_candidates (write_back instances (candidates s) refs) s).

Definition cast (user : VotingUser) (candidate_keys : list CandidateKey) : VotingUser :=
  mkVotingUser (student_id user) (token user) true candidate_keys
               (email_count user) (create_time user) (last_time_mail_sent user).

Definition _do_vote_body (user_key : VotingUserKey)
    (candidate_keys : list CandidateKey) : M unit :=
  do user <- get_voting_user user_key;
  match user with
  | None => raise AttributeError
  | Some user =>
      if voted user then raise (Exception "Already voted")
      else
        put_voting_user user_key (cast user candidate_keys) ;;
        do (candidates, instances) <- get_multi candidate_keys;
        match count_votes candidates instances with
        | Raise e => raise e
        | Return instances' => put_multi candidates instances'
        end
  end.

Definition _do_vote (user_key : VotingUserKey)
    (candidate_keys : list CandidateKey) : M unit :=
  transactional (_do_vote_body user_key candidate_keys).

(** ** The ballot check and [vote_with_data] *)

(** [candidate.key.parent()] *)
Definition _get_position_key (candidate : CandidateKey) : PositionKey := candidate.1.

(** Keys are ordered as their paths are. *)
Definition key_lt (a b : PositionKey) : bool :=
  (a.1 <? b.1) || ((a.1 =? b.1) && (a.2 <? b.2)).

(** The key function of [sorted] is applied to every element of the list,
    and fails on a [None]. *)
Fixpoint position_keys (refs : list (option CandidateKey)) : result (list CandidateKey) :=
  match refs with
  | [] => Return []
  | None :: _ => Raise AttributeError
  | Some c :: rest =>
      match position_keys rest with
      | Return cs => Return (c :: cs)
      | Raise e => Raise e
      end
  end.

Fixpoint insert_by_key (x : CandidateKey) (l : list CandidateKey) : list CandidateKey :=
  match l with
  | [] => [x]
  | y :: l' =>
      if key_lt (_get_position_key y) (_get_position_key x)
      then y :: insert_by_key x l'
      else x :: y :: l'
  end.

(** [sorted(candidates, key=_get_position_key)], a stable sort. *)
Definition sorted (l : list CandidateKey) : list CandidateKey :=
  foldr insert_by_key [] l.

(** [itertools.groupby(candidates, key=_get_position_key)]: the maximal runs
    of neighbours with equal keys. *)
Fixpoint groupby (l : list CandidateKey) : list (PositionKey * list CandidateKey) :=
  match l with
  | [] => []
  | x :: l' =>
      match groupby l' with
      | (k, g) :: gs =>
          if decide (_get_position_key x = k) then (k, x :: g) :: gs
          else (_get_position_key x, [x]) :: (k, g) :: gs
      | [] => [(_get_position_key x, [x])]
      end
  end.

(** The loop over the groups (lines 287-290). *)
Fixpoint check_vote_count (groups : list (PositionKey * list CandidateKey)) : M unit :=
  match groups with
  | [] => ret tt
  | (key, group) :: rest =>
      do position <- get_position key;
      match position with
      | None => raise AttributeError
      | Some position =>
          if votes_per_person position <? Z.of_nat (length group)
          then raise (HTTPException 403 "Invalid votes")
          else check_vote_count rest
      end
  end.

(** Lines 280-290: everything between the token lookup and the
    transaction. *)
Definition validate (candidate_keys : list CandidateKey) : M unit :=
  do (candidates, _) <- get_multi candidate_keys;
  match position_keys candidates with
  | Raise e => raise e
  | Return candidates => check_vote_count (groupby (sorted candidates))
  end.

Inductive Response :=
| Text (body : string)
| Json (is_sent : bool) (rest_wait_time : Z) (has_voted : bool) (error_message : string).

(** [candidate_ids] are the candidate keys decoded from their url-safe
    form. *)
Definition vote_with_data (tok : string) (candidate_ids : list CandidateKey)
  : M Response :=
  do user <- _get_user_from_token tok;
  match user with
  | None => raise (HTTPException 403 "Invalid token")
  | Some (user_key, _) =>
      let candidate_keys := candidate_ids in
      validate candidate_keys ;;
      try_except (_do_vote user_key candidate_keys)
                 (fun _ => raise (HTTPException 403 "Transaction fail")) ;;
      ret (Text "success")
  end.

(** ** The rate limiter: [_get_rest_wait_time] *)

(** [int(time_since_create.total_seconds() / 60)]: whole minutes, rounded
    towards zero. *)
Definition minutes_since (t0 now : Z) : Z := (now - t0) ÷ 60000000.

(** [10 * math.pow(2, email_count - 1)], for [email_count > 0]; the float of
    the source holds an integer, kept here as an integer. *)
Definition minutes_should_wait (count : Z) : Z := 10 * 2 ^ (count - 1).

Definition _get_rest_wait_time (voting_user : VotingUser) (now : Z) : Z :=
  if 0 <? email_count voting_user then
    let minute_diff := minutes_since (create_time voting_user) now in
    if minute_diff <? minutes_should_wait (email_count voting_user)
    then minutes_should_wait (email_count voting_user) - minute_diff
    else 0
  else 0.

(** ** Sending the token: [_send_voting_email] and [send_voting_email] *)

Definition mail_sent (user : VotingUser) (now : Z) : VotingUser :=
  mkVotingUser (student_id user) (token user) (voted user) (votes user)
               (email_count user + 1) (create_time user) (Some now).

Definition _send_voting_email (voting_user : VotingUserKey * VotingUser) (now : Z)
  : M bool :=
  let (key, user) := voting_user in
  do election <- get_election key.1;
  match election with
  | None => raise (ValueError "voting_user should have election as ndb ancestpr")
  | Some election =>
      let voting_link := "http://ntuvb-allstar.appspot.com/vote/" +:+ token user in
      let from_email := "NTUManVolley@gmail.com" in
      let to_email := student_id user +:+ "@ntu.edu.tw" in
      queue_add (mkTask to_email from_email (title election)
                        (student_id user) voting_link) ;;
      put_voting_user key (mail_sent user now) ;;
      ret true
  end.

(** A posted value, as the form or the JSON body delivers it. *)
Inductive pyval :=
| PyNone
| PyBool (b : bool)
| PyInt (n : Z)
| PyStr (s : string).

(** The three fields read from the post data; [post_data.get] gives
    [PyNone] for an absent field, and the election key is the decoded one. *)
Record PostData := mkPostData {
  post_student_id : pyval;
  post_forced_send : pyval;
  post_election_key : Z
}.

(** [value == 'true'] *)
Definition eq_str (v : pyval) (s : string) : bool :=
  match v with
  | PyStr s' => String.eqb s' s
  | _ => false
  end.

Definition parse_forced_send (post_data : PostData) : bool :=
  if eq_str (post_forced_send post_data) "true" then true else false.

(** The clock reads of one request are taken at one instant [now]. *)
Definition send_voting_email (post_data : PostData) (now : Z) (uuid : string)
  : M Response :=
  match post_student_id post_data with
  | PyStr sid =>
      let lowercase_student_id := lower sid in
      let forced_send := parse_forced_send post_data in
      let websafe_election_key := post_election_key post_data in
      do voting_user <-
        _get_or_create_voting_user websafe_election_key lowercase_student_id now uuid;
      if voted voting_user.2 then ret (Text "already voted")
      else
        let rest_wait_time := _get_rest_wait_time voting_user.2 now in
        do sent <-
          try_except
            (if (email_count voting_user.2 =? 0) || (forced_send && (rest_wait_time =? 0))
             then do is_sent <- _send_voting_email voting_user now; ret (Some is_sent)
             else ret (Some false))
            (fun _ => ret None);
        match sent with
        | None => ret (Text "send fail")
        | Some is_sent =>
            ret (Json is_sent rest_wait_time (voted voting_user.2) "")
        end
  | _ => raise AttributeError
  end.

(** ** Requests and runs *)

Inductive Request :=
| SendVotingEmail (post_data : PostData) (now : Z) (uuid : string)
| VoteWithData (tok : string) (candidate_ids : list CandidateKey).

Definition handle (r : Request) : M Response :=
  match r with
  | SendVotingEmail post_data now uuid => send_voting_email post_data now uuid
  | VoteWithData tok candidate_ids => vote_with_data tok candidate_ids
  end.

(** The store after serving the requests in order, one after the other and
    none overlapping another; an unhandled exception ends its request (with
    an error page) and the next one is served. *)
Definition run (rs : list Request) (s : Store) : Store :=
  foldl (fun s r => (handle r s).2) s rs.

(** The store after a sequence of requests to vote, each a token with a
    ballot.  [_do_vote] is a transaction, and what [vote_with_data] reads
    before it (the key of the voter of the token, the candidates and the
    positions that are stored) is written by no request to vote, so
    requests to vote that overlap act as they do in some order. *)
Definition cast_votes (ballots : list (string * list CandidateKey)) (s : Store)
  : Store :=
  foldl (fun s b => (vote_with_data b.1 b.2 s).2) s ballots.

(** ** A small election for examples *)

Definition demo : Store :=
  mkStore {[ 1 := mkElection "allstar"; 2 := mkElection "rookie" ]}
          {[ (1, 1) := mkPosition 1; (1, 2) := mkPosition 2; (2, 1) := mkPosition 1 ]}
          {[ (1, 1, 1) := mkCandidate 1; (1, 1, 2) := mkCandidate 0;
             (1, 2, 1) := mkCandidate 0; (1, 2, 2) := mkCandidate 0;
             (2, 1, 1) := mkCandidate 0 ]}
          {[ (1, "b01") := mkVotingUser "b01" "t1" false [] 1 0 (Some 0);
             (1, "b02") := mkVotingUser "b02" "t2" true [(1, 1, 1)] 1 0 (Some 0) ]}
          [].

(** ** The vote page: [get_vote_page] *)

(** What the page handler answers: a redirect to ["/voted/<election>/"] or
    the vote page of the election with the token.  The [election_key] of a
    voter is the parent of the voter's key. *)
Inductive Page :=
| RedirectVoted (election_key : Z)
| VotePage (election : Election) (tok : string).

Definition get_vote_page (tok : string) : M Page :=
  do user <- _get_user_from_token tok;
  match user with
  | None => raise (HTTPException 404 "")
  | Some (key, user) =>
      if voted user then ret (RedirectVoted key.1)
      else
        do election <- get_election key.1;
        match election with
        | None => raise AttributeError
        | Some election => ret (VotePage election tok)
        end
  end.

(** ** The backend: [voting_backend.py] *)

Module Backend.

Inductive error :=
| ValueError
| OverflowError
| TypeError
| KeyError (key : string)
| OtherError.

(** A [datetime]: the wall-clock time in microseconds since
    0001-01-01T00:00:00 and the offset of its [tzinfo] in microseconds,
    [None] for a naive one. *)
Record datetime := mkDatetime { wall : Z; utcoffset : option Z }.

(** The microseconds from 0001-01-01T00:00:00 to the end of the year 9999:
    a [datetime] lies in the years 1 to 9999. *)
Definition datetime_end : Z := 3652059 * 86400 * 1000000.

Definition in_range (t : Z) : bool := (0 <=? t) && (t <? datetime_end).

(** A value of the dictionary: a field copied as it is, or a naive
    [datetime]. *)
Inductive value :=
| Plain (v : pyval)
| Naive (t : Z).

(** [timestamp.replace(tzinfo=None) - timestamp.utcoffset()]; the offset of
    a naive [datetime] is [None], and the subtraction fails on it with
    [TypeError]; a difference outside the years 1 to 9999 is an
    [OverflowError]. *)
Definition remove_timezone (timestamp : datetime) : error + Z :=
  match utcoffset timestamp with
  | Some offset =>
      if in_range (wall timestamp - offset)
      then inr (wall timestamp - offset)
      else inl OverflowError
  | None => inl TypeError
  end.

(** [name.endswith(suffix)] *)
Definition endswith (name suffix : string) : bool :=
  (String.length suffix <=? String.length name)%nat
  && String.eqb (substring (String.length name - String.length suffix)
                           (String.length suffix) name) suffix.

Section request_to_dict.

(** [dateutil.parser.parse], with the exception it raises. *)
Variable parse : pyval -> error + datetime.

(** The loop over [request.all_fields()]; a message is the list of its
    fields with their values. *)
Fixpoint copy_fields (fields : list (string * pyval)) (data : gmap string value)
  : error + gmap string value :=
  match fields with
  | [] => inr data
  | (name, val) :: rest =>
      if endswith name "_date" then
        match (match parse val with
               | inr date_val => remove_timezone date_val
               | inl e => inl e
               end) with
        | inl ValueError | inl OverflowError => copy_fields rest data
        | inl e => inl e
        | inr val' => copy_fields rest (<[name := Naive val']> data)
        end
      else copy_fields rest (<[name := Plain val]> data)
  end.

Definition request_to_dict (request : list (string * pyval))
  : error + gmap string value :=
  match copy_fields request ∅ with
  | inr data =>
      match data !! "web_safe_key" with
      | Some _ => inr (delete "web_safe_key" data)
      | None => inl (KeyError "web_safe_key")
      end
  | inl e => inl e
  end.

End request_to_dict.

(** The properties of an [Election] that the sweep reads and writes. *)
Record ElectionStatus := mkElectionStatus { end_date : Z; finished : bool }.

Definition finish (elect : ElectionStatus) : ElectionStatus :=
  mkElectionStatus (end_date elect) true.

(** [_update_unended_elections]: the query lists the elections that are
    not finished; the loop finishes those that ended before [now] and
    counts them. *)
Definition _update_unended_elections (now : Z) (es : gmap Z ElectionStatus)
  : gmap Z ElectionStatus * Z :=
  let qry := filter (fun kv => finished kv.2 = false) (map_to_list es) in
  foldl (fun acc kv =>
           if end_date kv.2 <? now
           then (<[kv.1 := finish kv.2]> acc.1, acc.2 + 1)
           else acc) (es, 0) qry.

End Backend.

(** ** Vocabulary of the properties *)

(** How often a key occurs in a ballot, and how many selections of a ballot
    belong to a position. *)
Definition occurrences (k : CandidateKey) (keys : list CandidateKey) : nat :=
  length (filter (fun c => c = k) keys).

Definition selections (key : PositionKey) (keys : list CandidateKey) : nat :=
  length (filter (fun c => _get_position_key c = key) keys).

(** The candidate table after one more vote for each key of a ballot. *)
Definition tally_votes (keys : list CandidateKey)
    (cs : gmap (Z * Z * Z) Candidate) : gmap (Z * Z * Z) Candidate :=
  foldl (fun m k => alter add_vote k m) cs keys.

(** The store that a committed ballot leaves. *)
Definition committed (user_key : VotingUserKey) (user : VotingUser)
    (candidate_keys : list CandidateKey) (s : Store) : Store :=
  set_candidates (tally_votes candidate_keys (candidates s))
    (set_voting_users (<[user_key := cast user candidate_keys]> (voting_users s)) s).

(** The order of position keys, as a proposition. *)
Definition key_le (a b : PositionKey) : Prop :=
  a.1 < b.1 \/ (a.1 = b.1 /\ a.2 <= b.2).

Definition by_position (x y : CandidateKey) : Prop :=
  key_le (_get_position_key x) (_get_position_key y).

(** A group of the ballot check is within the limit of its position. *)
Definition within_limit (s : Store) (kg : PositionKey * list CandidateKey) : Prop :=
  exists position,
    positions s !! kg.1 = Some position
    /\ Z.of_nat (length kg.2) <= votes_per_person position.

(** A ballot is within the limit of the position of each of its selections. *)
Definition ballot_valid (s : Store) (keys : list CandidateKey) : Prop :=
  forall c, c ∈ keys ->
    exists position,
      positions s !! _get_position_key c = Some position
      /\ Z.of_nat (selections (_get_position_key c) keys) <= votes_per_person position.

(** The sum of a quantity over the entities of a table. *)
Definition map_sum {K A} `{Countable K} (f : K -> A -> Z) (m : gmap K A) : Z :=
  map_fold (fun k a acc => f k a + acc) 0 m.

(** The votes counted for the candidates of a position. *)
Definition votes_under (key : PositionKey) (k : CandidateKey) (c : Candidate) : Z :=
  if decide (_get_position_key k = key) then num_votes c else 0.

Definition position_votes (key : PositionKey) (s : Store) : Z :=
  map_sum (votes_under key) (candidates s).

(** The number of voters who have voted, in all elections and in one. *)
Definition has_voted (k : VotingUserKey) (u : VotingUser) : Z :=
  if voted u then 1 else 0.

Definition has_voted_in (election : Z) (k : VotingUserKey) (u : VotingUser) : Z :=
  if decide (k.1 = election) then has_voted k u else 0.

Definition voters_voted (s : Store) : Z := map_sum has_voted (voting_users s).

Definition voters_voted_in (election : Z) (s : Store) : Z :=
  map_sum (has_voted_in election) (voting_users s).

(** The store when the vote opens: no votes counted, nobody has voted, and
    no position allows a negative number of votes. *)
Definition opening (s : Store) : Prop :=
  map_Forall (fun _ c => num_votes c = 0) (candidates s)
  /\ map_Forall (fun _ u => voted u = false) (voting_users s)
  /\ map_Forall (fun _ p => 0 <= votes_per_person p) (positions s).

(** The tally of every position is covered by the voters who voted. *)
Definition tallies_covered (s : Store) : Prop :=
  map_Forall (fun _ p => 0 <= votes_per_person p) (positions s)
  /\ 0 <= voters_voted s
  /\ forall key position,
       positions s !! key = Some position ->
       position_votes key s <= votes_per_person position * voters_voted s.

(** Tokens in a table of voters. *)
Definition tokens_unique (m : gmap (Z * string) VotingUser) : Prop :=
  forall k1 k2 u1 u2,
    m !! k1 = Some u1 -> m !! k2 = Some u2 -> token u1 = token u2 -> k1 = k2.

Definition holds_token (m : gmap (Z * string) VotingUser) (t : string) : Prop :=
  exists k u, m !! k = Some u /\ token u = t.

(** The values of [uuid.uuid4().hex] that come with the requests of a run. *)
Fixpoint draws (rs : list Request) : list string :=
  match rs with
  | [] => []
  | SendVotingEmail _ _ uuid :: rs' => uuid :: draws rs'
  | VoteWithData _ _ :: rs' => draws rs'
  end.

(** What a request for the e-mail does to the table of voters: it may
    create a voter with the drawn token, and may then stamp a voter as
    notified. *)
Definition created (uuid : string) (m m1 : gmap (Z * string) VotingUser) : Prop :=
  m1 = m
  \/ exists k sid now, m !! k = None /\ m1 = <[k := new_VotingUser sid uuid now]> m.

Definition notified (m1 m2 : gmap (Z * string) VotingUser) : Prop :=
  m2 = m1
  \/ exists k u now, m1 !! k = Some u /\ m2 = <[k := mail_sent u now]> m1.

(** A store of the example election before any vote. *)
Definition demo_opening : Store :=
  mkStore {[ 1 := mkElection "allstar"; 2 := mkElection "rookie" ]}
          {[ (1, 1) := mkPosition 1; (2, 1) := mkPosition 1 ]}
          {[ (1, 1, 1) := mkCandidate 0; (2, 1, 1) := mkCandidate 0 ]}
          {[ (1, "b01") := mkVotingUser "b01" "t1" false [] 1 0 (Some 0) ]}
          [].

(** The task that [_send_voting_email] queues for a voter. *)
Definition voting_email (user : VotingUser) (election : Election) : Task :=
  mkTask (student_id user +:+ "@ntu.edu.tw") "NTUManVolley@gmail.com"
         (title election) (student_id user)
         ("http://ntuvb-allstar.appspot.com/vote/" +:+ token user).

(** The stores that the handlers leave: after a voter is registered, after
    an e-mail is queued for a voter. *)
Definition registered (key : VotingUserKey) (sid uuid : string) (now : Z)
    (s : Store) : Store :=
  set_voting_users (<[key := new_VotingUser sid uuid now]> (voting_users s)) s.

Definition emailed (key : VotingUserKey) (user : VotingUser) (election : Election)
    (now : Z) (s : Store) : Store :=
  set_voting_users (<[key := mail_sent user now]> (voting_users s))
    (set_mail_queue (mail_queue s ++ [voting_email user election]) s).

(** The changes that a request can make to the store. *)
Inductive step : Store -> Store -> Prop :=
| step_register s key sid uuid now :
    voting_users s !! key = None ->
    step s (registered key sid uuid now s)
| step_email s key user election now :
    voting_users s !! key = Some user ->
    voted user = false ->
    step s (emailed key user election now s)
| step_vote s key user candidate_keys :
    voting_users s !! key = Some user ->
    voted user = false ->
    (forall k, k ∈ candidate_keys -> is_Some (candidates s !! k)) ->
    ballot_valid s candidate_keys ->
    step s (committed key user candidate_keys s).

(** The votes that the ballot of a voter gives to a candidate. *)
Definition counted (k : CandidateKey) (key : VotingUserKey) (u : VotingUser) : Z :=
  if voted u then Z.of_nat (occurrences k (votes u)) else 0.

(** Every tally is the number of votes in the ballots of the voters. *)
Definition ballots_counted (s : Store) : Prop :=
  forall k c, candidates s !! k = Some c ->
              num_votes c = map_sum (counted k) (voting_users s).



(** An election after the sweep at [now]. *)
Definition swept (now : Z) (elect : Backend.ElectionStatus) : Backend.ElectionStatus :=
  if Backend.end_date elect <? now then Backend.finish elect else elect.


(** A parser for examples: two dates with a zone, one of them in the first
    hours of the year 1, one date without zone, and text that is no date. *)
Definition demo_parse (v : pyval) : Backend.error + Backend.datetime :=
  match v with
  | PyStr "2016-03-01T08:00:00+08:00" =>
      inr (Backend.mkDatetime 63592416000000000 (Some 28800000000))
  | PyStr "0001-01-01T01:00:00+08:00" =>
      inr (Backend.mkDatetime 3600000000 (Some 28800000000))
  | PyStr "2016-03-01T08:00:00" => inr (Backend.mkDatetime 63592416000000000 None)
  | PyStr _ => inl Backend.ValueError
  | _ => inl Backend.OtherError
  end.

Definition demo_elections : gmap Z Backend.ElectionStatus :=
  {[ 1 := Backend.mkElectionStatus 100 false;
     2 := Backend.mkElectionStatus 300 false;
     3 := Backend.mkElectionStatus 50 true ]}.

(** * Properties *)

(** ** The voter registry *)

Lemma lower_ascii_idem c : lower_ascii (lower_ascii c) = lower_ascii c.
Proof. destruct c as [[] [] [] [] [] [] [] []]; reflexivity. Qed.

Lemma lower_idem sid : lower (lower sid) = lower sid.
Proof.
  induction sid as [|c sid IH]; simpl; [reflexivity|].
  now rewrite lower_ascii_idem, IH.
Qed.

Lemma get_or_create_existing s election_key sid now uuid user :
  sid = lower sid ->
  voting_users s !! (election_key, sid) = Some user ->
  _get_or_create_voting_user election_key sid now uuid s
  = (Return ((election_key, sid), user), s).
Proof.
  intros Hlow Hget.
  unfold _get_or_create_voting_user, transactional.
  rewrite <- Hlow, String.eqb_refl. simpl.
  unfold bind, get_voting_user. now rewrite Hget.
Qed.

Lemma get_or_create_fresh s election_key sid now uuid :
  sid = lower sid ->
  voting_users s !! (election_key, sid) = None ->
  _get_or_create_voting_user election_key sid now uuid s
  = (Return ((election_key, sid), new_VotingUser sid uuid now),
     set_voting_users
       (<[(election_key, sid) := new_VotingUser sid uuid now]> (voting_users s)) s).
Proof.
  intros Hlow Hget.
  unfold _get_or_create_voting_user, transactional.
  rewrite <- Hlow, String.eqb_refl. simpl.
  unfold bind, get_voting_user. now rewrite Hget.
Qed.

Lemma filter_none {A} (P : A -> Prop) `{forall x, Decision (P x)} (l : list A) :
  (forall x, x ∈ l -> ~ P x) -> filter P l = [].
Proof.
  induction l as [|x l IH]; intros Hl; [reflexivity|].
  rewrite filter_cons_False by (apply Hl; left).
  apply IH. intros y Hy. apply Hl. now right.
Qed.

(** A table holds exactly one record under a key that it maps. *)
Lemma one_record_per_key {A} (m : gmap (Z * string) A) k v :
  m !! k = Some v ->
  length (filter (fun kv => kv.1 = k) (map_to_list m)) = 1%nat.
Proof.
  intros Hk.
  rewrite <- (map_to_list_delete m k v Hk).
  rewrite filter_cons_True by reflexivity. simpl. f_equal.
  apply length_zero_iff_nil, filter_none.
  intros [k' v'] Hin Heq. simpl in Heq. subst k'.
  apply elem_of_map_to_list in Hin. now rewrite lookup_delete_eq in Hin.
Qed.

(** C6.  [_get_or_create_voting_user] is idempotent: for a lower-case
    student id the call returns a voter, a second call returns the same
    voter (so the same token) and leaves the store as the first left it,
    the table holds exactly one record under the (election, student id)
    key, and a voter that existed before the first call is returned as it
    was, with the store untouched. *)
Theorem get_or_create_idempotent s election_key sid now uuid now' uuid' :
  sid = lower sid ->
  exists user s1,
    _get_or_create_voting_user election_key sid now uuid s
    = (Return ((election_key, sid), user), s1)
    /\ _get_or_create_voting_user election_key sid now' uuid' s1
       = (Return ((election_key, sid), user), s1)
    /\ length (filter (fun kv => kv.1 = (election_key, sid))
                      (map_to_list (voting_users s1))) = 1%nat
    /\ (forall existing,
          voting_users s !! (election_key, sid) = Some existing ->
          user = existing /\ s1 = s).
Proof.
  intros Hlow.
  destruct (voting_users s !! (election_key, sid)) as [u|] eqn:Hget.
  - exists u, s. split; [|split; [|split]].
    + now apply get_or_create_existing.
    + now apply get_or_create_existing.
    + now apply one_record_per_key with u.
    + now intros ? [= ->].
  - eexists _, _. split; [now apply get_or_create_fresh|].
    assert (Hnew : voting_users
              (set_voting_users
                 (<[(election_key, sid) := new_VotingUser sid uuid now]>
                    (voting_users s)) s) !! (election_key, sid)
            = Some (new_VotingUser sid uuid now))
      by (simpl; apply lookup_insert_eq).
    split; [|split].
    + now apply get_or_create_existing.
    + eapply one_record_per_key, Hnew.
    + discriminate.
Qed.

Lemma get_or_create_idempotent_witness :
  exists user s1,
    _get_or_create_voting_user 1 "b03" 5 "u3" demo
    = (Return ((1, "b03"), user), s1)
    /\ _get_or_create_voting_user 1 "b03" 9 "u4" s1
       = (Return ((1, "b03"), user), s1)
    /\ length (filter (fun kv => kv.1 = (1, "b03"))
                      (map_to_list (voting_users s1))) = 1%nat
    /\ (forall existing,
          voting_users demo !! (1, "b03") = Some existing ->
          user = existing /\ s1 = demo).
Proof. apply (get_or_create_idempotent demo 1 "b03" 5 "u3" 9 "u4"). reflexivity. Defined.

(** C8.  A student id that is not in lower case makes
    [_get_or_create_voting_user] raise and leaves the store as it was; a
    lower-case one never raises. *)
Theorem get_or_create_lower_case s election_key sid now uuid :
  (sid <> lower sid ->
   _get_or_create_voting_user election_key sid now uuid s
   = (Raise (Exception "Student ID should be lower case"), s))
  /\ (sid = lower sid ->
      exists r s', _get_or_create_voting_user election_key sid now uuid s
                   = (Return r, s')).
Proof.
  split.
  - intros Hne. unfold _get_or_create_voting_user, transactional.
    apply String.eqb_neq in Hne. now rewrite Hne.
  - intros Hlow.
    destruct (voting_users s !! (election_key, sid)) as [u|] eqn:Hget.
    + eexists _, _. apply (get_or_create_existing _ _ _ _ _ _ Hlow Hget).
    + eexists _, _. apply (get_or_create_fresh _ _ _ _ _ Hlow Hget).
Qed.

Lemma get_or_create_lower_case_witness :
  _get_or_create_voting_user 1 "B03" 5 "u3" demo
  = (Raise (Exception "Student ID should be lower case"), demo)
  /\ exists r s', _get_or_create_voting_user 1 "b03" 5 "u3" demo = (Return r, s').
Proof.
  split.
  - apply (get_or_create_lower_case demo 1 "B03" 5 "u3"). vm_compute. discriminate.
  - apply (get_or_create_lower_case demo 1 "b03" 5 "u3"). reflexivity.
Defined.

(** ** The rate limiter *)

(** C7.  [_get_rest_wait_time] returns zero when no e-mail was sent yet;
    after [email_count > 0] e-mails, with a required wait of
    [10 * 2^(email_count - 1)] minutes and the minutes elapsed since the
    voter was created (the microseconds from [create_time] to [now] divided
    by the 60000000 of a minute and rounded towards zero: for a voter
    created in the past, the number of whole minutes that fit between the
    two times), it returns zero exactly when the elapsed minutes reach the
    required wait and the difference otherwise; the required waits after 1,
    2 and 3 e-mails are 10, 20 and 40 minutes. *)
Theorem rest_wait_time_backoff voting_user now :
  (email_count voting_user = 0 -> _get_rest_wait_time voting_user now = 0)
  /\ (0 < email_count voting_user ->
      let required := 10 * 2 ^ (email_count voting_user - 1) in
      let elapsed := (now - create_time voting_user) ÷ 60000000 in
      (_get_rest_wait_time voting_user now = 0 <-> required <= elapsed)
      /\ (elapsed < required ->
          _get_rest_wait_time voting_user now = required - elapsed)
      /\ (create_time voting_user <= now ->
          60000000 * elapsed <= now - create_time voting_user
          < 60000000 * (elapsed + 1)))
  /\ (minutes_should_wait 1 = 10 /\ minutes_should_wait 2 = 20
      /\ minutes_should_wait 3 = 40).
Proof.
  split; [|split].
  - intros H0. unfold _get_rest_wait_time. now rewrite H0.
  - intros Hpos. cbv zeta.
    unfold _get_rest_wait_time, minutes_should_wait, minutes_since.
    destruct (Z.ltb_spec 0 (email_count voting_user)) as [_|]; [|lia].
    split; [|split].
    + destruct (Z.ltb_spec ((now - create_time voting_user) ÷ 60000000)
                           (10 * 2 ^ (email_count voting_user - 1))); lia.
    + destruct (Z.ltb_spec ((now - create_time voting_user) ÷ 60000000)
                           (10 * 2 ^ (email_count voting_user - 1))); lia.
    + intros Hpast.
      rewrite Z.quot_div_nonneg by lia.
      pose proof (Z.mul_div_le (now - create_time voting_user) 60000000).
      pose proof (Z.mul_succ_div_gt (now - create_time voting_user) 60000000).
      lia.
  - repeat split.
Qed.

Lemma rest_wait_time_backoff_witness :
  _get_rest_wait_time (mkVotingUser "b01" "t1" false [] 0 0 None) 1 = 0
  /\ _get_rest_wait_time (mkVotingUser "b01" "t1" false [] 2 0 (Some 0)) 420000000 = 13
  /\ _get_rest_wait_time (mkVotingUser "b01" "t1" false [] 2 0 (Some 0)) 1200000000 = 0.
Proof.
  split; [|split].
  - apply (proj1 (rest_wait_time_backoff
                    (mkVotingUser "b01" "t1" false [] 0 0 None) 1)).
    reflexivity.
  - destruct (proj1 (proj2 (rest_wait_time_backoff
                (mkVotingUser "b01" "t1" false [] 2 0 (Some 0)) 420000000)))
      as (_ & Hrest & _); [reflexivity|].
    apply Hrest. reflexivity.
  - destruct (proj1 (proj2 (rest_wait_time_backoff
                (mkVotingUser "b01" "t1" false [] 2 0 (Some 0)) 1200000000)))
      as (Hzero & _ & _); [reflexivity|].
    apply Hzero. vm_compute. discriminate.
Defined.

(** ** The forced-send flag *)

Lemma eq_str_spec v s : eq_str v s = true <-> v = PyStr s.
Proof.
  destruct v as [| b | n | s']; simpl; try (split; [discriminate | discriminate]).
  rewrite String.eqb_eq. split; [now intros -> | now intros [= ->]].
Qed.

(** C10.  [send_voting_email] takes [forced_send] as set exactly when the
    posted value is the string ['true']; on a request with any other value
    (a boolean, another string, nothing) for a voter who was already sent an
    e-mail, nothing is written and nothing is queued: the store, with its
    mail queue, is the one before the request, and the answer is either
    ['already voted'] or reports [is_sent = false]. *)
Theorem forced_send_only_string_true post_data :
  (parse_forced_send post_data = true <-> post_forced_send post_data = PyStr "true")
  /\ forall s now uuid sid voting_user,
       post_forced_send post_data <> PyStr "true" ->
       post_student_id post_data = PyStr sid ->
       voting_users s !! (post_election_key post_data, lower sid) = Some voting_user ->
       0 < email_count voting_user ->
       exists response,
         send_voting_email post_data now uuid s = (Return response, s)
         /\ (response = Text "already voted"
             \/ response = Json false (_get_rest_wait_time voting_user now) false "").
Proof.
  assert (Hflag : parse_forced_send post_data = true
                  <-> post_forced_send post_data = PyStr "true").
  { unfold parse_forced_send. rewrite <- eq_str_spec.
    destruct (eq_str _ _); split; congruence. }
  split; [exact Hflag|].
  intros s now uuid sid u Hne Hsid Hget Hcount.
  assert (Hoff : parse_forced_send post_data = false).
  { destruct (parse_forced_send post_data); [|reflexivity].
    exfalso. apply Hne, Hflag. reflexivity. }
  unfold send_voting_email. rewrite Hsid, Hoff.
  unfold bind at 1.
  rewrite (get_or_create_existing s _ (lower sid) now uuid u
             (eq_sym (lower_idem sid)) Hget).
  simpl. destruct (voted u) eqn:Hvoted.
  - eexists. split; [reflexivity|]. now left.
  - assert (Hz : (email_count u =? 0) = false) by (apply Z.eqb_neq; lia).
    unfold bind, try_except. rewrite Hz. simpl.
    eexists. split; [reflexivity|]. now right.
Qed.

Lemma forced_send_only_string_true_witness :
  exists response,
    send_voting_email (mkPostData (PyStr "B01") (PyBool true) 1) 6000000000 "u9" demo
    = (Return response, demo)
    /\ (response = Text "already voted"
        \/ response
           = Json false (_get_rest_wait_time
                           (mkVotingUser "b01" "t1" false [] 1 0 (Some 0)) 6000000000)
                  false "").
Proof.
  apply (proj2 (forced_send_only_string_true
                  (mkPostData (PyStr "B01") (PyBool true) 1))
           demo 6000000000 "u9" "B01" (mkVotingUser "b01" "t1" false [] 1 0 (Some 0)));
    [discriminate | reflexivity | vm_compute; reflexivity | reflexivity].
Defined.

(** ** The vote transaction *)

(** C1.  For a voter whose [voted] flag is set, [_do_vote] raises
    ['Already voted'] before any write: the body of the transaction leaves
    the store (the voter, the votes, every tally) as it found it, and so
    does the transaction. *)
Theorem do_vote_already_voted s user_key user candidate_keys :
  voting_users s !! user_key = Some user ->
  voted user = true ->
  _do_vote_body user_key candidate_keys s = (Raise (Exception "Already voted"), s)
  /\ _do_vote user_key candidate_keys s = (Raise (Exception "Already voted"), s).
Proof.
  intros Hget Hvoted.
  assert (Hbody : _do_vote_body user_key candidate_keys s
                  = (Raise (Exception "Already voted"), s)).
  { unfold _do_vote_body, bind, get_voting_user. now rewrite Hget, Hvoted. }
  split; [exact Hbody|].
  unfold _do_vote, transactional. now rewrite Hbody.
Qed.

Lemma do_vote_already_voted_witness :
  _do_vote_body (1, "b02") [(1, 1, 2)] demo = (Raise (Exception "Already voted"), demo)
  /\ _do_vote (1, "b02") [(1, 1, 2)] demo = (Raise (Exception "Already voted"), demo).
Proof.
  apply (do_vote_already_voted demo (1, "b02")
           (mkVotingUser "b02" "t2" true [(1, 1, 1)] 1 0 (Some 0)) [(1, 1, 2)]);
    [vm_compute; reflexivity | reflexivity].
Defined.

Lemma fetch_resolved cs keys :
  (forall k, k ∈ keys -> is_Some (cs !! k)) -> fetch cs keys = map Some keys.
Proof.
  induction keys as [|k keys IH]; intros Hall; [reflexivity|].
  simpl. destruct (Hall k) as [c ->]; [left|].
  f_equal. apply IH. intros k' Hk'. apply Hall. now right.
Qed.

Lemma fetch_unresolved cs keys k :
  k ∈ keys -> cs !! k = None -> None ∈ fetch cs keys.
Proof.
  intros Hin Hk. unfold fetch. apply list_elem_of_In, in_map_iff.
  exists k. rewrite Hk. split; [reflexivity | now apply list_elem_of_In].
Qed.

Lemma instances_of_lookup cs keys k :
  instances_of cs keys !! k = if decide (k ∈ keys) then cs !! k else None.
Proof.
  induction keys as [|k0 keys IH]; simpl.
  - rewrite lookup_empty. destruct (decide (k ∈ [])) as [H|]; [inversion H | reflexivity].
  - destruct (decide (k = k0)) as [->|Hne].
    + rewrite decide_True by left.
      destruct (cs !! k0) as [c|] eqn:Hc.
      * now rewrite lookup_insert_eq.
      * rewrite IH. now destruct (decide (k0 ∈ keys)).
    + assert (Hk : instances_of cs (k0 :: keys) !! k = instances_of cs keys !! k).
      { simpl. destruct (cs !! k0); [now rewrite lookup_insert_ne | reflexivity]. }
      simpl in Hk. rewrite Hk, IH.
      destruct (decide (k ∈ keys)) as [Hin|Hnin].
      * rewrite decide_True by now right. reflexivity.
      * rewrite decide_False; [reflexivity|]. intros Hin. inversion Hin; auto.
Qed.

Lemma count_votes_resolved keys instances :
  count_votes (map Some keys) instances = Return (tally_votes keys instances).
Proof.
  revert instances. induction keys as [|k keys IH]; intros instances; simpl;
    [reflexivity | apply IH].
Qed.

Lemma count_votes_unresolved refs instances :
  None ∈ refs -> count_votes refs instances = Raise AttributeError.
Proof.
  revert instances. induction refs as [|[k|] refs IH]; intros instances Hin; simpl.
  - inversion Hin.
  - apply IH. apply elem_of_cons in Hin as [Hhd|Htl]; [discriminate | assumption].
  - reflexivity.
Qed.

Lemma tally_votes_lookup keys cs k :
  tally_votes keys cs !! k
  = (fun c => mkCandidate (num_votes c + Z.of_nat (occurrences k keys))) <$> cs !! k.
Proof.
  revert cs. induction keys as [|k0 keys IH]; intros cs.
  - simpl. destruct (cs !! k) as [[n]|]; simpl; [|reflexivity].
    do 2 f_equal. cbn. lia.
  - change (tally_votes (k0 :: keys) cs) with (tally_votes keys (alter add_vote k0 cs)).
    rewrite IH. unfold occurrences.
    destruct (decide (k0 = k)) as [->|Hne].
    + rewrite lookup_alter_eq. rewrite filter_cons_True by reflexivity.
      destruct (cs !! k) as [[n]|]; simpl; [|reflexivity].
      do 2 f_equal. lia.
    + rewrite lookup_alter_ne by assumption.
      rewrite filter_cons_False by assumption. reflexivity.
Qed.

Lemma occurrences_absent k keys : k ∉ keys -> occurrences k keys = 0%nat.
Proof.
  intros Hnin. unfold occurrences. rewrite filter_none; [reflexivity|].
  intros x Hx ->. contradiction.
Qed.

Lemma occurrences_NoDup k keys : NoDup keys -> k ∈ keys -> occurrences k keys = 1%nat.
Proof.
  induction 1 as [|k0 keys Hnin Hnd IH]; intros Hin; [inversion Hin|].
  unfold occurrences. destruct (decide (k0 = k)) as [->|Hne].
  - rewrite filter_cons_True by reflexivity. simpl. f_equal.
    now apply occurrences_absent.
  - rewrite filter_cons_False by assumption. apply IH.
    inversion Hin; [congruence | assumption].
Qed.

Lemma write_back_lookup instances cs keys k :
  write_back instances cs (map Some keys) !! k
  = match (if decide (k ∈ keys) then instances !! k else None) with
    | Some c => Some c
    | None => cs !! k
    end.
Proof.
  revert cs. induction keys as [|k0 keys IH]; intros cs.
  - simpl. destruct (decide (k ∈ [])) as [H|]; [inversion H | reflexivity].
  - change (write_back instances cs (map Some (k0 :: keys)))
      with (write_back instances
              (match instances !! k0 with
               | Some c => <[k0 := c]> cs
               | None => cs
               end) (map Some keys)).
    rewrite IH.
    destruct (decide (k ∈ keys)) as [Hin|Hnin].
    + rewrite decide_True by now right.
      destruct (instances !! k) as [c|] eqn:Hk; [reflexivity|].
      destruct (instances !! k0) as [c0|] eqn:Hk0; [|reflexivity].
      rewrite lookup_insert_ne; [reflexivity | congruence].
    + destruct (decide (k = k0)) as [->|Hne].
      * rewrite decide_True by left.
        destruct (instances !! k0) as [c0|]; [apply lookup_insert_eq | reflexivity].
      * rewrite decide_False by (intros Hin; inversion Hin; auto).
        destruct (instances !! k0) as [c0|]; [now rewrite lookup_insert_ne | reflexivity].
Qed.

(** What the three steps on the candidates (lines 87-90) amount to. *)
Lemma write_back_tally cs keys :
  write_back (tally_votes keys (instances_of cs keys)) cs (map Some keys)
  = tally_votes keys cs.
Proof.
  apply map_eq. intros k.
  rewrite write_back_lookup, !tally_votes_lookup, instances_of_lookup.
  destruct (decide (k ∈ keys)) as [Hin|Hnin].
  - now destruct (cs !! k).
  - rewrite occurrences_absent by assumption.
    destruct (cs !! k) as [[n]|]; simpl; [|reflexivity].
    do 2 f_equal. lia.
Qed.

Arguments fetch : simpl never.
Arguments instances_of : simpl never.
Arguments write_back : simpl never.
Arguments tally_votes : simpl never.

Lemma do_vote_commit s user_key user candidate_keys :
  voting_users s !! user_key = Some user ->
  voted user = false ->
  (forall k, k ∈ candidate_keys -> is_Some (candidates s !! k)) ->
  _do_vote user_key candidate_keys s
  = (Return tt, committed user_key user candidate_keys s).
Proof.
  intros Hget Hvoted Hall.
  unfold _do_vote, transactional, _do_vote_body, bind, get_voting_user.
  rewrite Hget, Hvoted. simpl.
  rewrite (fetch_resolved _ _ Hall), count_votes_resolved.
  unfold put_multi. simpl.
  unfold committed. now rewrite write_back_tally.
Qed.

(** A raise inside the transaction leaves the store as it was. *)
Lemma do_vote_raise s user_key candidate_keys e s' :
  _do_vote user_key candidate_keys s = (Raise e, s') -> s' = s.
Proof.
  unfold _do_vote, transactional.
  destruct (_do_vote_body user_key candidate_keys s) as [[[]|e'] s1]; congruence.
Qed.

(** The transaction returns only for a voter who had not voted and a
    ballot of stored candidates, and then commits the ballot. *)
Lemma do_vote_return s user_key candidate_keys s' :
  _do_vote user_key candidate_keys s = (Return tt, s') ->
  exists user,
    voting_users s !! user_key = Some user /\ voted user = false
    /\ (forall k, k ∈ candidate_keys -> is_Some (candidates s !! k))
    /\ s' = committed user_key user candidate_keys s.
Proof.
  intros Hrun.
  destruct (voting_users s !! user_key) as [user|] eqn:Hget.
  2:{ unfold _do_vote, transactional, _do_vote_body, bind, get_voting_user in Hrun.
      rewrite Hget in Hrun. discriminate. }
  destruct (voted user) eqn:Hvoted.
  { unfold _do_vote, transactional, _do_vote_body, bind, get_voting_user in Hrun.
    rewrite Hget, Hvoted in Hrun. discriminate. }
  assert (Hall : forall k, k ∈ candidate_keys -> is_Some (candidates s !! k)).
  { intros k Hin. destruct (candidates s !! k) as [c|] eqn:Hk; [eauto|]. exfalso.
    unfold _do_vote, transactional, _do_vote_body, bind, get_voting_user in Hrun.
    rewrite Hget, Hvoted in Hrun. simpl in Hrun.
    rewrite (count_votes_unresolved _ _ (fetch_unresolved _ _ _ Hin Hk)) in Hrun.
    discriminate. }
  exists user. repeat split; try assumption.
  rewrite (do_vote_commit s user_key user candidate_keys Hget Hvoted Hall) in Hrun.
  congruence.
Qed.

(** C2.  For a voter who has not voted and a ballot of distinct keys of
    stored candidates, [_do_vote] returns, and then the voter's [votes] are
    the ballot, the voter's [voted] flag is set, each candidate of the
    ballot has exactly one vote more, and every other candidate is as
    before. *)
Theorem do_vote_records_ballot s user_key user candidate_keys :
  voting_users s !! user_key = Some user ->
  voted user = false ->
  NoDup candidate_keys ->
  (forall k, k ∈ candidate_keys -> is_Some (candidates s !! k)) ->
  exists s' user',
    _do_vote user_key candidate_keys s = (Return tt, s')
    /\ voting_users s' !! user_key = Some user'
    /\ votes user' = candidate_keys
    /\ voted user' = true
    /\ (forall k c, k ∈ candidate_keys -> candidates s !! k = Some c ->
          candidates s' !! k = Some (mkCandidate (num_votes c + 1)))
    /\ (forall k, k ∉ candidate_keys -> candidates s' !! k = candidates s !! k).
Proof.
  intros Hget Hvoted Hnd Hall.
  exists (committed user_key user candidate_keys s), (cast user candidate_keys).
  split; [now apply do_vote_commit|].
  split; [apply lookup_insert_eq|].
  split; [reflexivity|]. split; [reflexivity|]. split.
  - intros k c Hin Hk. simpl. rewrite tally_votes_lookup, Hk.
    now rewrite (occurrences_NoDup k candidate_keys Hnd Hin).
  - intros k Hnin. simpl. rewrite tally_votes_lookup, occurrences_absent by assumption.
    destruct (candidates s !! k) as [[n]|]; simpl; [|reflexivity].
    do 2 f_equal. lia.
Qed.

Lemma do_vote_records_ballot_witness :
  exists s' user',
    _do_vote (1, "b01") [(1, 1, 1); (1, 2, 1)] demo = (Return tt, s')
    /\ voting_users s' !! (1, "b01") = Some user'
    /\ votes user' = [(1, 1, 1); (1, 2, 1)]
    /\ voted user' = true
    /\ (forall k c, k ∈ [(1, 1, 1); (1, 2, 1)] -> candidates demo !! k = Some c ->
          candidates s' !! k = Some (mkCandidate (num_votes c + 1)))
    /\ (forall k, k ∉ [(1, 1, 1); (1, 2, 1)] -> candidates s' !! k = candidates demo !! k).
Proof.
  apply (do_vote_records_ballot demo (1, "b01")
           (mkVotingUser "b01" "t1" false [] 1 0 (Some 0)) [(1, 1, 1); (1, 2, 1)]).
  - vm_compute. reflexivity.
  - reflexivity.
  - apply (bool_decide_unpack _). vm_compute. exact I.
  - intros k Hk. apply list_elem_of_In in Hk.
    destruct Hk as [<-|[<-|[]]]; vm_compute; eauto.
Defined.

(** ** The ballot check *)

Lemma key_lt_false a b : key_lt b a = false <-> key_le a b.
Proof.
  destruct a as [a1 a2], b as [b1 b2]. unfold key_lt, key_le. simpl.
  rewrite orb_false_iff, andb_false_iff, !Z.ltb_ge, Z.eqb_neq. lia.
Qed.

Lemma key_lt_true a b : key_lt b a = true -> key_le b a.
Proof.
  destruct a as [a1 a2], b as [b1 b2]. unfold key_lt, key_le. simpl.
  rewrite orb_true_iff, andb_true_iff, !Z.ltb_lt, Z.eqb_eq. lia.
Qed.

Lemma key_le_refl a : key_le a a.
Proof. destruct a as [a1 a2]. unfold key_le. simpl. lia. Qed.

Lemma key_le_antisym a b : key_le a b -> key_le b a -> a = b.
Proof.
  destruct a as [a1 a2], b as [b1 b2]. unfold key_le. simpl.
  intros. f_equal; lia.
Qed.

#[local] Instance by_position_trans : Transitive by_position.
Proof.
  intros [[a1 a2] a3] [[b1 b2] b3] [[c1 c2] c3].
  unfold by_position, key_le, _get_position_key. simpl. lia.
Qed.

Lemma insert_by_key_perm x l : insert_by_key x l ≡ₚ x :: l.
Proof.
  induction l as [|y l IH]; simpl; [reflexivity|].
  destruct (key_lt _ _); [|reflexivity].
  rewrite IH. apply perm_swap.
Qed.

Lemma sorted_perm l : sorted l ≡ₚ l.
Proof.
  induction l as [|x l IH]; [reflexivity|].
  change (sorted (x :: l)) with (insert_by_key x (sorted l)).
  now rewrite insert_by_key_perm, IH.
Qed.

Lemma insert_by_key_sorted x l :
  Sorted by_position l -> Sorted by_position (insert_by_key x l).
Proof.
  induction 1 as [|y l Hl IH Hhd]; simpl.
  - repeat constructor.
  - destruct (key_lt (_get_position_key y) (_get_position_key x)) eqn:Hlt.
    + constructor; [exact IH|].
      destruct Hhd as [|z l Hyz]; simpl.
      * constructor. now apply key_lt_true.
      * destruct (key_lt (_get_position_key z) (_get_position_key x));
          constructor; [assumption | now apply key_lt_true].
    + constructor; [now constructor|]. constructor. now apply key_lt_false.
Qed.

Lemma sorted_sorted l : StronglySorted by_position (sorted l).
Proof.
  apply Sorted_StronglySorted; [apply _|].
  induction l as [|x l IH]; [constructor|].
  change (sorted (x :: l)) with (insert_by_key x (sorted l)).
  now apply insert_by_key_sorted.
Qed.

Lemma groupby_nil l : groupby l = [] -> l = [].
Proof.
  destruct l as [|x l]; [reflexivity|]. simpl.
  destruct (groupby l) as [|[k g] gs]; [discriminate|].
  destruct (decide _); discriminate.
Qed.

Lemma groupby_head x l k g gs :
  groupby (x :: l) = (k, g) :: gs -> k = _get_position_key x.
Proof.
  simpl. destruct (groupby l) as [|[k0 g0] gs0]; [congruence|].
  destruct (decide _); congruence.
Qed.

Lemma groupby_keys k g l :
  (k, g) ∈ groupby l -> exists c, c ∈ l /\ _get_position_key c = k.
Proof.
  revert k g. induction l as [|x l IH]; intros k g Hin; [inversion Hin|].
  simpl in Hin. destruct (groupby l) as [|[k0 g0] gs] eqn:Hl.
  - apply list_elem_of_singleton in Hin as [= -> ->]. exists x. split; [left | reflexivity].
  - destruct (decide (_get_position_key x = k0)) as [Heq|Hne].
    + apply elem_of_cons in Hin as [[= -> ->]|Hin].
      * exists x. split; [left | assumption].
      * destruct (IH k g) as (c & Hc & Hk); [now right|].
        exists c. split; [now right | assumption].
    + apply elem_of_cons in Hin as [[= -> ->]|Hin].
      * exists x. split; [left | reflexivity].
      * destruct (IH k g Hin) as (c & Hc & Hk).
        exists c. split; [now right | assumption].
Qed.

Lemma groupby_covers c l :
  c ∈ l -> exists g, (_get_position_key c, g) ∈ groupby l.
Proof.
  induction l as [|x l IH]; intros Hin; [inversion Hin|].
  simpl. apply elem_of_cons in Hin as [->|Hin].
  - destruct (groupby l) as [|[k0 g0] gs].
    + eexists. left.
    + destruct (decide (_get_position_key x = k0)) as [<-|Hne]; eexists; left.
  - destruct (IH Hin) as [g Hg].
    destruct (groupby l) as [|[k0 g0] gs]; [inversion Hg|].
    destruct (decide (_get_position_key x = k0)) as [Heq|Hne].
    + apply elem_of_cons in Hg as [[= Hk ->]|Hg].
      * rewrite Hk. eexists. left.
      * eexists. right. eassumption.
    + eexists. right. eassumption.
Qed.

Lemma sorted_no_later_key x l :
  StronglySorted by_position (x :: l) ->
  (forall y l', l = y :: l' -> _get_position_key y <> _get_position_key x) ->
  forall c, c ∈ l -> _get_position_key c <> _get_position_key x.
Proof.
  intros Hs Hhd c Hc Heq.
  destruct l as [|y l']; [inversion Hc|].
  apply (Hhd y l' eq_refl).
  apply StronglySorted_inv in Hs as [Hs Hx].
  apply StronglySorted_inv in Hs as [_ Hy].
  rewrite Forall_forall in Hx, Hy.
  apply key_le_antisym.
  - rewrite <- Heq. apply elem_of_cons in Hc as [Hc|Hc].
    + rewrite Hc. apply key_le_refl.
    + apply (Hy c Hc).
  - apply (Hx y). left.
Qed.

(** On a list sorted by position, every group holds all the elements of
    its position, and no position has two groups. *)
Lemma groupby_sorted l :
  StronglySorted by_position l ->
  NoDup (groupby l).*1
  /\ forall k g, (k, g) ∈ groupby l -> g = filter (fun c => _get_position_key c = k) l.
Proof.
  induction l as [|x l IH]; intros Hs.
  - split; [constructor | intros k g Hin; inversion Hin].
  - destruct (IH (proj1 (StronglySorted_inv Hs))) as [Hnd Hgroups].
    pose proof (sorted_no_later_key x l Hs) as Hlater.
    simpl. destruct (groupby l) as [|[k0 g0] gs] eqn:Hl.
    + apply groupby_nil in Hl as ->. split; [repeat constructor; inversion 1|].
      intros k g Hin. apply list_elem_of_singleton in Hin as [= -> ->].
      now rewrite filter_cons_True.
    + destruct (decide (_get_position_key x = k0)) as [Heq|Hne].
      * split; [exact Hnd|]. intros k g Hin.
        apply elem_of_cons in Hin as [[= -> ->]|Hin].
        -- rewrite filter_cons_True by assumption. f_equal.
           apply Hgroups. left.
        -- rewrite filter_cons_False; [apply Hgroups; now right|].
           intros Hk. apply NoDup_cons in Hnd as [Hnin _]. apply Hnin.
           simpl. rewrite <- Heq, Hk.
           apply (list_elem_of_fmap_2 fst gs (k, g)). exact Hin.
      * assert (Hfresh : forall c, c ∈ l -> _get_position_key c <> _get_position_key x).
        { apply Hlater. intros y l' ->. apply groupby_head in Hl as ->.
          congruence. }
        assert (Hkeys : forall k g, (k, g) ∈ (k0, g0) :: gs -> k <> _get_position_key x).
        { intros k g Hin Hk. rewrite <- Hl in Hin.
          destruct (groupby_keys k g l Hin) as (c & Hc & Hck).
          apply (Hfresh c Hc). congruence. }
        split.
        -- change (NoDup (_get_position_key x :: ((k0, g0) :: gs).*1)).
           apply NoDup_cons. split; [|exact Hnd].
           intros Hin. apply list_elem_of_fmap in Hin as ([k g] & Hk & Hin).
           now apply (Hkeys k g Hin).
        -- intros k g Hin. apply elem_of_cons in Hin as [[= -> ->]|Hin].
           ++ rewrite filter_cons_True by reflexivity. f_equal. symmetry.
              apply filter_none. intros c Hc. now apply Hfresh.
           ++ rewrite filter_cons_False; [now apply Hgroups|].
              intros Hk. now apply (Hkeys k g Hin).
Qed.

(** The groups that the check walks through are the positions of the
    ballot, each with all the selections of the ballot under it. *)
Lemma groups_selections keys k g :
  (k, g) ∈ groupby (sorted keys) -> length g = selections k keys.
Proof.
  intros Hin. unfold selections.
  rewrite (proj2 (groupby_sorted _ (sorted_sorted keys)) k g Hin).
  now rewrite sorted_perm.
Qed.

Lemma groups_within_limit s keys :
  Forall (within_limit s) (groupby (sorted keys)) <-> ballot_valid s keys.
Proof.
  rewrite Forall_forall. split.
  - intros Hall c Hc.
    destruct (groupby_covers c (sorted keys)) as [g Hg]; [now rewrite sorted_perm|].
    destruct (Hall _ Hg) as (position & Hp & Hle).
    exists position. split; [exact Hp|].
    simpl in Hle. now rewrite <- (groups_selections keys _ g Hg).
  - intros Hvalid [k g] Hin.
    destruct (groupby_keys k g _ Hin) as (c & Hc & <-).
    rewrite sorted_perm in Hc.
    destruct (Hvalid c Hc) as (position & Hp & Hle).
    exists position. split; [exact Hp|].
    simpl. now rewrite (groups_selections keys _ g Hin).
Qed.

Lemma check_vote_count_store groups s : (check_vote_count groups s).2 = s.
Proof.
  induction groups as [|[k g] groups IH]; [reflexivity|].
  simpl. unfold bind, get_position.
  destruct (positions s !! k) as [position|]; [|reflexivity].
  destruct (votes_per_person position <? Z.of_nat (length g)); [reflexivity | exact IH].
Qed.

Lemma check_vote_count_return groups s :
  (check_vote_count groups s).1 = Return tt <-> Forall (within_limit s) groups.
Proof.
  induction groups as [|[k g] groups IH]; [split; [constructor | reflexivity]|].
  simpl. unfold bind, get_position. rewrite Forall_cons, <- IH. unfold within_limit. simpl.
  destruct (positions s !! k) as [position|].
  - destruct (Z.ltb_spec (votes_per_person position) (Z.of_nat (length g))).
    + split; [discriminate|]. intros [(p & [= <-] & Hle) _]. lia.
    + split; [intros Hrest; split; eauto | now intros [_ Hrest]].
  - split; [discriminate|]. now intros [(p & Hp & _) _].
Qed.

Lemma check_vote_count_invalid groups s :
  (forall kg, kg ∈ groups -> is_Some (positions s !! kg.1)) ->
  ~ Forall (within_limit s) groups ->
  (check_vote_count groups s).1 = Raise (HTTPException 403 "Invalid votes").
Proof.
  induction groups as [|[k g] groups IH]; intros Hpos Hbad.
  - exfalso. apply Hbad. constructor.
  - simpl. unfold bind, get_position.
    destruct (Hpos (k, g)) as [position Hp]; [left|]. simpl in Hp. rewrite Hp.
    destruct (Z.ltb_spec (votes_per_person position) (Z.of_nat (length g)));
      [reflexivity|].
    apply IH.
    + intros kg Hin. apply Hpos. now right.
    + intros Hrest. apply Hbad. constructor; [|exact Hrest].
      exists position. now split.
Qed.

Lemma position_keys_resolved keys : position_keys (map Some keys) = Return keys.
Proof. induction keys as [|k keys IH]; simpl; [reflexivity | now rewrite IH]. Qed.

Lemma position_keys_unresolved refs :
  None ∈ refs -> position_keys refs = Raise AttributeError.
Proof.
  induction refs as [|[k|] refs IH]; intros Hin; simpl.
  - inversion Hin.
  - rewrite IH; [reflexivity|].
    apply elem_of_cons in Hin as [Hhd|Htl]; [discriminate | assumption].
  - reflexivity.
Qed.

Lemma validate_resolved keys s :
  (forall k, k ∈ keys -> is_Some (candidates s !! k)) ->
  validate keys s = check_vote_count (groupby (sorted keys)) s.
Proof.
  intros Hall. unfold validate, bind, get_multi.
  now rewrite (fetch_resolved _ _ Hall), position_keys_resolved.
Qed.

Lemma validate_unresolved keys s k :
  k ∈ keys -> candidates s !! k = None -> validate keys s = (Raise AttributeError, s).
Proof.
  intros Hin Hk. unfold validate, bind, get_multi.
  now rewrite (position_keys_unresolved _ (fetch_unresolved _ _ _ Hin Hk)).
Qed.

Lemma validate_store keys s : (validate keys s).2 = s.
Proof.
  unfold validate, bind, get_multi.
  destruct (position_keys (fetch (candidates s) keys)); [|reflexivity].
  apply check_vote_count_store.
Qed.

(** The check passes exactly on the ballots of stored candidates that are
    within the limit of every position they select from. *)
Lemma validate_return keys s :
  validate keys s = (Return tt, s)
  <-> (forall k, k ∈ keys -> is_Some (candidates s !! k)) /\ ballot_valid s keys.
Proof.
  split.
  - intros Hrun.
    assert (Hall : forall k, k ∈ keys -> is_Some (candidates s !! k)).
    { intros k Hin. destruct (candidates s !! k) eqn:Hk; [eauto|].
      rewrite (validate_unresolved keys s k Hin Hk) in Hrun. discriminate. }
    split; [exact Hall|].
    apply groups_within_limit, check_vote_count_return.
    rewrite <- (validate_resolved keys s Hall). now rewrite Hrun.
  - intros [Hall Hvalid]. rewrite (validate_resolved keys s Hall).
    apply groups_within_limit, check_vote_count_return in Hvalid.
    pose proof (check_vote_count_store (groupby (sorted keys)) s) as Hs.
    destruct (check_vote_count (groupby (sorted keys)) s) as [r s'].
    simpl in *. congruence.
Qed.

Lemma validate_invalid keys s :
  (forall k, k ∈ keys -> is_Some (candidates s !! k)) ->
  (forall k, k ∈ keys -> is_Some (positions s !! _get_position_key k)) ->
  ~ ballot_valid s keys ->
  validate keys s = (Raise (HTTPException 403 "Invalid votes"), s).
Proof.
  intros Hall Hpos Hbad. rewrite (validate_resolved keys s Hall).
  pose proof (check_vote_count_store (groupby (sorted keys)) s) as Hs.
  assert (Hr : (check_vote_count (groupby (sorted keys)) s).1
               = Raise (HTTPException 403 "Invalid votes")).
  { apply check_vote_count_invalid.
    - intros [k g] Hin. destruct (groupby_keys k g _ Hin) as (c & Hc & <-).
      apply Hpos. now rewrite <- (sorted_perm keys).
    - now rewrite groups_within_limit. }
  destruct (check_vote_count (groupby (sorted keys)) s) as [r s'].
  simpl in *. congruence.
Qed.

Lemma vote_with_data_unchecked tok candidate_ids s user e :
  _get_user_from_token tok s = (Return (Some user), s) ->
  validate candidate_ids s = (Raise e, s) ->
  vote_with_data tok candidate_ids s = (Raise e, s).
Proof.
  intros Huser Hcheck. unfold vote_with_data. unfold bind at 1.
  rewrite Huser. destruct user as [user_key u]. unfold bind at 1.
  now rewrite Hcheck.
Qed.

(** C3.  With a valid token and a ballot of stored candidates under stored
    positions: when the selections under the position of some selection
    outnumber its [votes_per_person], the check and the request raise the
    403 ['Invalid votes'] and the store is as before; when the selections
    under every position are within its [votes_per_person], the check
    passes. *)
Theorem vote_count_checked s tok user candidate_ids :
  _get_user_from_token tok s = (Return (Some user), s) ->
  (forall c, c ∈ candidate_ids -> is_Some (candidates s !! c)) ->
  (forall c, c ∈ candidate_ids -> is_Some (positions s !! _get_position_key c)) ->
  ((exists c position,
       c ∈ candidate_ids
       /\ positions s !! _get_position_key c = Some position
       /\ votes_per_person position
          < Z.of_nat (selections (_get_position_key c) candidate_ids)) ->
   validate candidate_ids s = (Raise (HTTPException 403 "Invalid votes"), s)
   /\ vote_with_data tok candidate_ids s
      = (Raise (HTTPException 403 "Invalid votes"), s))
  /\ ((forall c position,
         c ∈ candidate_ids ->
         positions s !! _get_position_key c = Some position ->
         Z.of_nat (selections (_get_position_key c) candidate_ids)
         <= votes_per_person position) ->
      validate candidate_ids s = (Return tt, s)).
Proof.
  intros Huser Hall Hpos. split.
  - intros (c & position & Hc & Hp & Hgt).
    assert (Hcheck : validate candidate_ids s
                     = (Raise (HTTPException 403 "Invalid votes"), s)).
    { apply validate_invalid; [assumption..|].
      intros Hvalid. destruct (Hvalid c Hc) as (p & Hp' & Hle).
      rewrite Hp in Hp'. injection Hp' as <-. lia. }
    split; [exact Hcheck|].
    eapply vote_with_data_unchecked; eassumption.
  - intros Hle. apply validate_return. split; [exact Hall|].
    intros c Hc. destruct (Hpos c Hc) as [position Hp].
    exists position. split; [exact Hp | now apply Hle].
Qed.

Lemma vote_count_checked_witness :
  (validate [(1, 1, 1); (1, 1, 2)] demo
   = (Raise (HTTPException 403 "Invalid votes"), demo)
   /\ vote_with_data "t1" [(1, 1, 1); (1, 1, 2)] demo
      = (Raise (HTTPException 403 "Invalid votes"), demo))
  /\ validate [(1, 2, 1); (1, 2, 2)] demo = (Return tt, demo).
Proof.
  assert (Huser : _get_user_from_token "t1" demo
                  = (Return (Some ((1, "b01"),
                                   mkVotingUser "b01" "t1" false [] 1 0 (Some 0))), demo))
    by (vm_compute; reflexivity).
  split.
  - apply (proj1 (vote_count_checked demo "t1" _ [(1, 1, 1); (1, 1, 2)] Huser
                    ltac:(intros c Hc; apply list_elem_of_In in Hc;
                          destruct Hc as [<-|[<-|[]]]; vm_compute; eauto)
                    ltac:(intros c Hc; apply list_elem_of_In in Hc;
                          destruct Hc as [<-|[<-|[]]]; vm_compute; eauto))).
    exists (1, 1, 1), (mkPosition 1).
    split; [left|]. split; vm_compute; reflexivity.
  - apply (proj2 (vote_count_checked demo "t1" _ [(1, 2, 1); (1, 2, 2)] Huser
                    ltac:(intros c Hc; apply list_elem_of_In in Hc;
                          destruct Hc as [<-|[<-|[]]]; vm_compute; eauto)
                    ltac:(intros c Hc; apply list_elem_of_In in Hc;
                          destruct Hc as [<-|[<-|[]]]; vm_compute; eauto))).
    intros c position Hc Hp. apply list_elem_of_In in Hc.
    destruct Hc as [<-|[<-|[]]]; vm_compute in Hp; injection Hp as <-;
      vm_compute; discriminate.
Defined.

(** ** Requests to vote *)

Lemma get_user_from_token_lookup tok s user_key user :
  _get_user_from_token tok s = (Return (Some (user_key, user)), s) ->
  voting_users s !! user_key = Some user.
Proof.
  unfold _get_user_from_token. intros [= Hfind].
  apply find_some in Hfind as [Hin _].
  now apply list_elem_of_In, elem_of_map_to_list in Hin.
Qed.

Lemma vote_with_data_unfold tok candidate_ids s :
  vote_with_data tok candidate_ids s
  = match (_get_user_from_token tok s).1 with
    | Return (Some (user_key, _)) =>
        match validate candidate_ids s with
        | (Return _, s1) =>
            match _do_vote user_key candidate_ids s1 with
            | (Return _, s2) => (Return (Text "success"), s2)
            | (Raise _, s2) => (Raise (HTTPException 403 "Transaction fail"), s2)
            end
        | (Raise e, s1) => (Raise e, s1)
        end
    | Return None => (Raise (HTTPException 403 "Invalid token"), s)
    | Raise e => (Raise e, s)
    end.
Proof.
  unfold vote_with_data, bind, try_except, _get_user_from_token. simpl.
  destruct (List.find _ _) as [[user_key u0]|]; [|reflexivity].
  destruct (validate candidate_ids s) as [[[]|e] s1]; [|reflexivity].
  now destruct (_do_vote user_key candidate_ids s1) as [[[]|e] s2].
Qed.

(** A request to vote either raises and leaves the store as it was, or
    commits the ballot of a voter who had not voted; the ballot then is of
    stored candidates and within the limits. *)
Lemma vote_with_data_cases tok candidate_ids s :
  (exists e, vote_with_data tok candidate_ids s = (Raise e, s))
  \/ (exists user_key user,
        voting_users s !! user_key = Some user
        /\ voted user = false
        /\ (forall k, k ∈ candidate_ids -> is_Some (candidates s !! k))
        /\ ballot_valid s candidate_ids
        /\ vote_with_data tok candidate_ids s
           = (Return (Text "success"), committed user_key user candidate_ids s)).
Proof.
  rewrite vote_with_data_unfold.
  destruct (_get_user_from_token tok s).1 as [[[user_key u0]|]|e];
    [|left; eexists; reflexivity..].
  pose proof (validate_store candidate_ids s) as Hstore.
  destruct (validate candidate_ids s) as [[[]|e] s1] eqn:Hcheck; simpl in Hstore; subst s1.
  2:{ left. eexists. reflexivity. }
  apply validate_return in Hcheck as [Hall Hvalid].
  destruct (_do_vote user_key candidate_ids s) as [[[]|e] s2] eqn:Hvote.
  - apply do_vote_return in Hvote as (user & Hget & Hvoted & _ & ->).
    right. exists user_key, user. repeat split; assumption || reflexivity.
  - apply do_vote_raise in Hvote as ->. left. eexists. reflexivity.
Qed.

(** C4 (as the code has it).  A ballot with a key that no stored candidate
    has makes the check raise [AttributeError] and the request raise, with
    the store as it was, so no ballot is committed; the empty ballot passes
    the check, and with the token of a voter who has not voted the request
    answers ['success'] and commits it: the voter is marked as having voted
    with no votes, and the tallies stay as they were. *)
Theorem unknown_candidate_or_empty_ballot s tok :
  (forall candidate_ids c,
     c ∈ candidate_ids -> candidates s !! c = None ->
     validate candidate_ids s = (Raise AttributeError, s)
     /\ exists e, vote_with_data tok candidate_ids s = (Raise e, s))
  /\ validate [] s = (Return tt, s)
  /\ (forall user_key user,
        _get_user_from_token tok s = (Return (Some (user_key, user)), s) ->
        voted user = false ->
        vote_with_data tok [] s
        = (Return (Text "success"),
           set_voting_users (<[user_key := cast user []]> (voting_users s)) s)).
Proof.
  split; [|split].
  - intros candidate_ids c Hc Hnone.
    split; [now apply validate_unresolved with c|].
    destruct (vote_with_data_cases tok candidate_ids s)
      as [Hraise|(uk & u & _ & _ & Hall & _)]; [exact Hraise|].
    destruct (Hall c Hc) as [x Hx]. congruence.
  - apply validate_return. split; intros k Hk; inversion Hk.
  - intros user_key user Huser Hvoted.
    pose proof (get_user_from_token_lookup _ _ _ _ Huser) as Hget.
    rewrite vote_with_data_unfold, Huser. simpl.
    replace (validate [] s) with (Return tt, s)
      by (symmetry; apply validate_return; split; intros k Hk; inversion Hk).
    rewrite (do_vote_commit s user_key user [] Hget Hvoted)
      by (intros k Hk; inversion Hk).
    reflexivity.
Qed.

Lemma unknown_candidate_or_empty_ballot_witness :
  (validate [(1, 1, 1); (3, 1, 1)] demo = (Raise AttributeError, demo)
   /\ exists e, vote_with_data "t1" [(1, 1, 1); (3, 1, 1)] demo = (Raise e, demo))
  /\ vote_with_data "t1" [] demo
     = (Return (Text "success"),
        set_voting_users
          (<[(1, "b01") := cast (mkVotingUser "b01" "t1" false [] 1 0 (Some 0)) []]>
             (voting_users demo)) demo).
Proof.
  split.
  - apply (proj1 (unknown_candidate_or_empty_ballot demo "t1")
             [(1, 1, 1); (3, 1, 1)] (3, 1, 1)).
    + right. left.
    + vm_compute. reflexivity.
  - apply (proj2 (proj2 (unknown_candidate_or_empty_ballot demo "t1"))).
    + vm_compute. reflexivity.
    + reflexivity.
Defined.

(** C4 as stated fails: the empty ballot is not rejected.  With the token
    of a voter who has not voted the request answers ['success'] and marks
    the voter as having voted. *)
Lemma empty_ballot_accepted :
  (vote_with_data "t1" [] demo).1 = Return (Text "success")
  /\ voted <$> voting_users (vote_with_data "t1" [] demo).2 !! (1, "b01") = Some true
  /\ ~ (forall s tok candidate_ids,
          candidate_ids = [] \/ (exists c, c ∈ candidate_ids /\ candidates s !! c = None) ->
          exists e, (vote_with_data tok candidate_ids s).1 = Raise e).
Proof.
  split; [vm_compute; reflexivity|]. split; [vm_compute; reflexivity|].
  intros Hclaim.
  destruct (Hclaim demo "t1" [] (or_introl eq_refl)) as [e He].
  vm_compute in He. discriminate.
Qed.

(** ** Sums over tables *)

Section map_sum.
Context {K A : Type} `{Countable K} (f : K -> A -> Z).

Lemma map_sum_empty : map_sum f (∅ : gmap K A) = 0.
Proof. unfold map_sum. apply map_fold_empty. Qed.

Lemma map_sum_insert_None (m : gmap K A) k a :
  m !! k = None -> map_sum f (<[k := a]> m) = f k a + map_sum f m.
Proof.
  intros Hk. unfold map_sum. rewrite map_fold_insert_L; [reflexivity| |exact Hk].
  intros; lia.
Qed.

Lemma map_sum_insert_Some (m : gmap K A) k a a' :
  m !! k = Some a -> map_sum f (<[k := a']> m) = map_sum f m - f k a + f k a'.
Proof.
  intros Hk.
  assert (Hm : map_sum f m = f k a + map_sum f (delete k m)).
  { rewrite <- (insert_delete_id m k a Hk) at 1.
    apply map_sum_insert_None, lookup_delete_eq. }
  rewrite <- insert_delete_eq, map_sum_insert_None by apply lookup_delete_eq.
  lia.
Qed.

Lemma map_sum_zero (m : gmap K A) :
  map_Forall (fun k a => f k a = 0) m -> map_sum f m = 0.
Proof.
  induction m as [|k a m Hk IH] using map_ind; intros Hall.
  - apply map_sum_empty.
  - rewrite map_sum_insert_None by exact Hk.
    apply map_Forall_insert in Hall as [-> Hall]; [|exact Hk].
    now rewrite IH.
Qed.

Lemma map_sum_nonneg (m : gmap K A) :
  (forall k a, 0 <= f k a) -> 0 <= map_sum f m.
Proof.
  intros Hf. induction m as [|k a m Hk IH] using map_ind.
  - now rewrite map_sum_empty.
  - rewrite map_sum_insert_None by exact Hk. specialize (Hf k a). lia.
Qed.
End map_sum.

Lemma alter_as_insert (cs : gmap (Z * Z * Z) Candidate) k c :
  cs !! k = Some c -> alter add_vote k cs = <[k := add_vote c]> cs.
Proof.
  intros Hk. apply map_eq. intros k'. destruct (decide (k = k')) as [<-|Hne].
  - now rewrite lookup_alter_eq, lookup_insert_eq, Hk.
  - now rewrite lookup_alter_ne, lookup_insert_ne.
Qed.

Lemma votes_under_tally key keys cs :
  (forall k, k ∈ keys -> is_Some (cs !! k)) ->
  map_sum (votes_under key) (tally_votes keys cs)
  = map_sum (votes_under key) cs + Z.of_nat (selections key keys).
Proof.
  revert cs. induction keys as [|k keys IH]; intros cs Hall.
  - unfold tally_votes, selections. simpl. lia.
  - change (tally_votes (k :: keys) cs) with (tally_votes keys (alter add_vote k cs)).
    destruct (Hall k) as [c Hc]; [left|].
    rewrite IH.
    + rewrite (alter_as_insert cs k c Hc), (map_sum_insert_Some _ cs k c _ Hc).
      unfold selections, votes_under, _get_position_key. simpl.
      destruct (decide (k.1 = key)) as [Heq|Hne].
      * rewrite filter_cons_True by exact Heq. simpl length. lia.
      * rewrite filter_cons_False by exact Hne. lia.
    + intros k' Hk'. apply lookup_alter_is_Some. apply Hall. now right.
Qed.

Lemma position_votes_committed key user_key user candidate_keys s :
  (forall k, k ∈ candidate_keys -> is_Some (candidates s !! k)) ->
  position_votes key (committed user_key user candidate_keys s)
  = position_votes key s + Z.of_nat (selections key candidate_keys).
Proof. intros Hall. unfold position_votes. simpl. now apply votes_under_tally. Qed.

Lemma voters_voted_committed user_key user candidate_keys s :
  voting_users s !! user_key = Some user ->
  voted user = false ->
  voters_voted (committed user_key user candidate_keys s) = voters_voted s + 1.
Proof.
  intros Hget Hvoted. unfold voters_voted. simpl.
  rewrite (map_sum_insert_Some _ _ _ _ _ Hget). unfold has_voted. simpl.
  rewrite Hvoted. lia.
Qed.

Lemma selections_pos key keys :
  (0 < selections key keys)%nat -> exists c, c ∈ keys /\ _get_position_key c = key.
Proof.
  unfold selections. intros Hpos.
  destruct (filter _ keys) as [|c l] eqn:Hf; [simpl in Hpos; lia|].
  assert (Hc : c ∈ filter (fun c => _get_position_key c = key) keys)
    by (rewrite Hf; left).
  apply list_elem_of_filter in Hc as [Hk Hc]. eauto.
Qed.

(** A committed ballot keeps the tallies covered. *)
Lemma tallies_covered_committed user_key user candidate_keys s :
  voting_users s !! user_key = Some user ->
  voted user = false ->
  (forall k, k ∈ candidate_keys -> is_Some (candidates s !! k)) ->
  ballot_valid s candidate_keys ->
  tallies_covered s ->
  tallies_covered (committed user_key user candidate_keys s).
Proof.
  intros Hget Hvoted Hall Hvalid (Hpos & Hnonneg & Hcov).
  split; [exact Hpos|].
  rewrite (voters_voted_committed _ _ _ _ Hget Hvoted).
  split; [lia|].
  intros key position Hp. simpl in Hp.
  rewrite (position_votes_committed key _ _ _ _ Hall).
  specialize (Hcov key position Hp). pose proof (Hpos key position Hp) as Hp0.
  simpl in Hp0.
  destruct (Nat.eq_dec (selections key candidate_keys) 0%nat) as [Hz|Hnz].
  - rewrite Hz. nia.
  - destruct (selections_pos key candidate_keys) as (c & Hc & <-); [lia|].
    destruct (Hvalid c Hc) as (p & Hp' & Hle).
    rewrite Hp in Hp'. injection Hp' as <-. nia.
Qed.

(** ** Requests for the e-mail *)

Lemma get_or_create_store election_key sid now uuid s :
  let r := _get_or_create_voting_user election_key sid now uuid s in
  elections r.2 = elections s /\ positions r.2 = positions s
  /\ candidates r.2 = candidates s
  /\ created uuid (voting_users s) (voting_users r.2)
  /\ forall vu, r.1 = Return vu -> voting_users r.2 !! vu.1 = Some vu.2.
Proof.
  unfold _get_or_create_voting_user, transactional.
  destruct (negb (String.eqb sid (lower sid))); simpl.
  { repeat split; [now left | discriminate]. }
  unfold bind, get_voting_user.
  destruct (voting_users s !! (election_key, sid)) as [u|] eqn:Hget; simpl.
  - repeat split; [now left | now intros vu [= <-]].
  - repeat split.
    + right. exists (election_key, sid), sid, now. now split.
    + intros vu [= <-]. apply lookup_insert_eq.
Qed.

Lemma send_email_store voting_user now s :
  let r := _send_voting_email voting_user now s in
  elections r.2 = elections s /\ positions r.2 = positions s
  /\ candidates r.2 = candidates s
  /\ (voting_users r.2 = voting_users s
      \/ voting_users r.2
         = <[voting_user.1 := mail_sent voting_user.2 now]> (voting_users s)).
Proof.
  destruct voting_user as [key u]. unfold _send_voting_email, bind, get_election.
  destruct (elections s !! key.1) as [election|]; simpl.
  - repeat split. now right.
  - repeat split. now left.
Qed.

Lemma send_voting_email_unfold post_data now uuid s :
  send_voting_email post_data now uuid s
  = match post_student_id post_data with
    | PyStr sid =>
        match _get_or_create_voting_user (post_election_key post_data)
                (lower sid) now uuid s with
        | (Return voting_user, s1) =>
            if voted voting_user.2 then (Return (Text "already voted"), s1)
            else if (email_count voting_user.2 =? 0)
                    || (parse_forced_send post_data
                        && (_get_rest_wait_time voting_user.2 now =? 0))
            then match _send_voting_email voting_user now s1 with
                 | (Return is_sent, s2) =>
                     (Return (Json is_sent (_get_rest_wait_time voting_user.2 now)
                                   (voted voting_user.2) ""), s2)
                 | (Raise _, s2) => (Return (Text "send fail"), s2)
                 end
            else (Return (Json false (_get_rest_wait_time voting_user.2 now)
                               (voted voting_user.2) ""), s1)
        | (Raise e, s1) => (Raise e, s1)
        end
    | _ => (Raise AttributeError, s)
    end.
Proof.
  unfold send_voting_email.
  destruct (post_student_id post_data) as [| b | n | sid]; try reflexivity.
  unfold bind at 1.
  destruct (_get_or_create_voting_user _ _ _ _ s) as [[voting_user|e] s1];
    [|reflexivity].
  destruct (voted voting_user.2); [reflexivity|].
  unfold bind, try_except.
  destruct ((email_count voting_user.2 =? 0) || _); [|reflexivity].
  now destruct (_send_voting_email voting_user now s1) as [[is_sent|e] s2].
Qed.

(** A request for the e-mail leaves elections, positions and candidates
    alone, and on the voters it creates at most one and notifies at most
    one. *)
Lemma send_voting_email_store post_data now uuid s :
  let s' := (send_voting_email post_data now uuid s).2 in
  elections s' = elections s /\ positions s' = positions s
  /\ candidates s' = candidates s
  /\ exists m1, created uuid (voting_users s) m1 /\ notified m1 (voting_users s').
Proof.
  rewrite send_voting_email_unfold.
  assert (Hsame : elections s = elections s /\ positions s = positions s
                  /\ candidates s = candidates s
                  /\ exists m1, created uuid (voting_users s) m1
                                /\ notified m1 (voting_users s)).
  { repeat split. exists (voting_users s). split; now left. }
  destruct (post_student_id post_data) as [| b | n | sid]; try exact Hsame.
  destruct (get_or_create_store (post_election_key post_data) (lower sid) now uuid s)
    as (He & Hp & Hc & Hcreated & Hlookup).
  destruct (_get_or_create_voting_user _ _ _ _ s) as [[voting_user|e] s1];
    simpl in He, Hp, Hc, Hcreated, Hlookup.
  2:{ simpl. repeat split; try assumption. eexists. split; [eassumption | now left]. }
  assert (Hs1 : elections s1 = elections s /\ positions s1 = positions s
                /\ candidates s1 = candidates s
                /\ exists m1, created uuid (voting_users s) m1
                              /\ notified m1 (voting_users s1)).
  { repeat split; try assumption. eexists. split; [eassumption | now left]. }
  destruct (voted voting_user.2); [exact Hs1|].
  destruct ((email_count voting_user.2 =? 0) || _); [|exact Hs1].
  destruct (send_email_store voting_user now s1) as (He2 & Hp2 & Hc2 & Hsent).
  assert (Hs2 : elections (_send_voting_email voting_user now s1).2 = elections s
                /\ positions (_send_voting_email voting_user now s1).2 = positions s
                /\ candidates (_send_voting_email voting_user now s1).2 = candidates s
                /\ exists m1, created uuid (voting_users s) m1
                     /\ notified m1 (voting_users (_send_voting_email voting_user now s1).2)).
  { repeat split; try congruence. exists (voting_users s1). split; [exact Hcreated|].
    destruct Hsent as [->| ->]; [now left|].
    right. exists voting_user.1, voting_user.2, now. split; [now apply Hlookup | reflexivity]. }
  now destruct (_send_voting_email voting_user now s1) as [[is_sent|e] s2].
Qed.

(** What holds before a sequence of requests to vote and is kept by every
    committed ballot holds after it. *)
Lemma cast_votes_ind (P : Store -> Prop) :
  (forall s key user candidate_keys,
     voting_users s !! key = Some user ->
     voted user = false ->
     (forall k, k ∈ candidate_keys -> is_Some (candidates s !! k)) ->
     ballot_valid s candidate_keys ->
     P s -> P (committed key user candidate_keys s)) ->
  forall ballots s, P s -> P (cast_votes ballots s).
Proof.
  intros Hcommit ballots.
  induction ballots as [|[tok candidate_ids] ballots IH]; intros s Hs; [exact Hs|].
  change (cast_votes ((tok, candidate_ids) :: ballots) s)
    with (cast_votes ballots (vote_with_data tok candidate_ids s).2).
  apply IH.
  destruct (vote_with_data_cases tok candidate_ids s)
    as [[e ->]|(uk & u & Hget & Hvoted & Hall & Hvalid & ->)]; [exact Hs|].
  now apply Hcommit.
Qed.

Lemma opening_covered s : opening s -> tallies_covered s.
Proof.
  intros (Hzero & Hnobody & Hpos).
  assert (Hv : voters_voted s = 0).
  { apply map_sum_zero. intros k u Hk. unfold has_voted. now rewrite (Hnobody k u Hk). }
  split; [exact Hpos|]. rewrite Hv. split; [lia|].
  intros key position Hp.
  assert (Ht : position_votes key s = 0).
  { apply map_sum_zero. intros k c Hk. unfold votes_under.
    destruct (decide _); [apply (Hzero k c Hk) | reflexivity]. }
  lia.
Qed.

(** C5 (as the code has it).  From a store where no vote is counted, nobody
    has voted and no position has a negative [votes_per_person], after any
    sequence of requests to vote the votes counted for the candidates of a
    position are at most its [votes_per_person] times the number of voters,
    of whatever election, who have voted. *)
Theorem position_votes_bounded s ballots key position :
  opening s ->
  positions (cast_votes ballots s) !! key = Some position ->
  position_votes key (cast_votes ballots s)
  <= votes_per_person position * voters_voted (cast_votes ballots s).
Proof.
  intros Hopen Hp.
  assert (Hcovered : tallies_covered (cast_votes ballots s)).
  { apply cast_votes_ind; [|now apply opening_covered].
    intros s0 key0 user ids Hget Hvoted Hall Hvalid Hcov.
    now apply tallies_covered_committed. }
  destruct Hcovered as (_ & _ & Hcov). now apply Hcov.
Qed.

Lemma demo_opening_opening : opening demo_opening.
Proof.
  repeat split; apply (bool_decide_unpack _); vm_compute; exact I.
Qed.

Lemma position_votes_bounded_witness :
  position_votes (1, 1) (cast_votes [("t1", [(1, 1, 1)])] demo_opening)
  <= votes_per_person (mkPosition 1)
     * voters_voted (cast_votes [("t1", [(1, 1, 1)])] demo_opening).
Proof.
  apply (position_votes_bounded demo_opening [("t1", [(1, 1, 1)])]
           (1, 1) (mkPosition 1)).
  - exact demo_opening_opening.
  - vm_compute. reflexivity.
Defined.

(** C5 as stated fails: the ballot check does not look at the election of
    the voter.  A voter of election 1 votes for a candidate of election 2;
    the position of election 2 then counts one vote, while no voter of
    election 2 has voted. *)
Lemma vote_across_elections :
  (vote_with_data "t1" [(2, 1, 1)] demo_opening).1 = Return (Text "success")
  /\ position_votes (2, 1) (cast_votes [("t1", [(2, 1, 1)])] demo_opening) = 1
  /\ voters_voted_in 2 (cast_votes [("t1", [(2, 1, 1)])] demo_opening) = 0
  /\ ~ (forall s ballots key position,
          opening s ->
          positions (cast_votes ballots s) !! key = Some position ->
          position_votes key (cast_votes ballots s)
          <= votes_per_person position * voters_voted_in key.1 (cast_votes ballots s)).
Proof.
  split; [vm_compute; reflexivity|].
  split; [vm_compute; reflexivity|].
  split; [vm_compute; reflexivity|].
  intros Hclaim.
  specialize (Hclaim demo_opening [("t1", [(2, 1, 1)])] (2, 1) (mkPosition 1)
                demo_opening_opening ltac:(vm_compute; reflexivity)).
  vm_compute in Hclaim. apply Hclaim. reflexivity.
Qed.

(** ** Tokens *)

Lemma tokens_updated (m : gmap (Z * string) VotingUser) k u u' :
  m !! k = Some u ->
  token u' = token u ->
  (forall k' x, <[k := u']> m !! k' = Some x ->
     exists x0, m !! k' = Some x0 /\ token x0 = token x).
Proof.
  intros Hk Htok k' x Hx. destruct (decide (k = k')) as [<-|Hne].
  - rewrite lookup_insert_eq in Hx. injection Hx as <-. eauto.
  - rewrite lookup_insert_ne in Hx by exact Hne. eauto.
Qed.

Lemma holds_token_updated m k u u' t :
  m !! k = Some u -> token u' = token u ->
  holds_token (<[k := u']> m) t -> holds_token m t.
Proof.
  intros Hk Htok (k' & x & Hx & <-).
  destruct (tokens_updated m k u u' Hk Htok k' x Hx) as (x0 & Hx0 & Ht).
  now exists k', x0.
Qed.

Lemma tokens_unique_updated m k u u' :
  m !! k = Some u -> token u' = token u ->
  tokens_unique m -> tokens_unique (<[k := u']> m).
Proof.
  intros Hk Htok Huniq k1 k2 u1 u2 H1 H2 Heq.
  destruct (tokens_updated m k u u' Hk Htok k1 u1 H1) as (x1 & Hx1 & Ht1).
  destruct (tokens_updated m k u u' Hk Htok k2 u2 H2) as (x2 & Hx2 & Ht2).
  apply (Huniq k1 k2 x1 x2 Hx1 Hx2). congruence.
Qed.

Lemma holds_token_created uuid m m1 t :
  created uuid m m1 -> holds_token m1 t -> holds_token m t \/ t = uuid.
Proof.
  intros [->|(k & sid & now & Hk & ->)] (k' & x & Hx & <-); [left; now exists k', x|].
  destruct (decide (k = k')) as [<-|Hne].
  - rewrite lookup_insert_eq in Hx. injection Hx as <-. now right.
  - rewrite lookup_insert_ne in Hx by exact Hne. left. now exists k', x.
Qed.

Lemma tokens_unique_created uuid m m1 :
  created uuid m m1 -> ~ holds_token m uuid -> tokens_unique m -> tokens_unique m1.
Proof.
  intros [->|(k & sid & now & Hk & ->)] Hfresh Huniq; [exact Huniq|].
  intros k1 k2 u1 u2 H1 H2 Heq.
  destruct (decide (k = k1)) as [<-|Hne1], (decide (k = k2)) as [<-|Hne2];
    [reflexivity|..].
  - rewrite lookup_insert_eq in H1. rewrite lookup_insert_ne in H2 by exact Hne2.
    injection H1 as <-. exfalso. apply Hfresh. exists k2, u2. now split.
  - rewrite lookup_insert_eq in H2. rewrite lookup_insert_ne in H1 by exact Hne1.
    injection H2 as <-. exfalso. apply Hfresh. exists k1, u1. now split.
  - rewrite lookup_insert_ne in H1 by exact Hne1.
    rewrite lookup_insert_ne in H2 by exact Hne2.
    now apply (Huniq k1 k2 u1 u2).
Qed.

(** The tokens after a request are those before it and the one drawn for
    it, and they stay unique when the drawn one is not yet held. *)
Lemma tokens_handle r s :
  (forall t, holds_token (voting_users (handle r s).2) t ->
     holds_token (voting_users s) t \/ t ∈ draws [r])
  /\ (tokens_unique (voting_users s) ->
      (forall t, t ∈ draws [r] -> ~ holds_token (voting_users s) t) ->
      tokens_unique (voting_users (handle r s).2)).
Proof.
  destruct r as [post_data now uuid | tok candidate_ids]; simpl.
  - destruct (send_voting_email_store post_data now uuid s)
      as (_ & _ & _ & m1 & Hcreated & Hnotified).
    split.
    + intros t Ht.
      assert (Ht1 : holds_token m1 t).
      { destruct Hnotified as [Heq|(k & u & now' & Hk & Heq)]; rewrite Heq in Ht;
          [exact Ht|].
        now apply (holds_token_updated m1 k u (mail_sent u now') t Hk). }
      destruct (holds_token_created uuid _ _ t Hcreated Ht1) as [Hold| ->];
        [now left | right; left].
    + intros Huniq Hfresh.
      assert (Hu1 : tokens_unique m1).
      { apply (tokens_unique_created uuid _ _ Hcreated); [|exact Huniq].
        apply Hfresh. left. }
      destruct Hnotified as [->|(k & u & now' & Hk & ->)]; [exact Hu1|].
      now apply (tokens_unique_updated m1 k u).
  - destruct (vote_with_data_cases tok candidate_ids s)
      as [[e ->]|(uk & u & Hget & _ & _ & _ & ->)]; simpl.
    + split; [now left | now intros].
    + split.
      * intros t Ht. left.
        now apply (holds_token_updated _ uk u (cast u candidate_ids) t Hget).
      * intros Huniq _. now apply (tokens_unique_updated _ uk u).
Qed.

Lemma draws_cons r rs : draws (r :: rs) = (draws [r] ++ draws rs)%list.
Proof. now destruct r. Qed.

(** C9 (as the code has it).  The code draws the token of a new voter and
    does not compare it with the tokens in use, so tokens are as unique as
    the draws are: from a store whose tokens are unique, after any run of
    requests whose draws of [uuid.uuid4().hex] are pairwise distinct and
    not held by a voter of the starting store, no two voters of whatever
    elections hold the same token.  A token is never rewritten after the
    voter is created. *)
Theorem tokens_stay_unique rs s :
  tokens_unique (voting_users s) ->
  NoDup (draws rs) ->
  (forall t, t ∈ draws rs -> ~ holds_token (voting_users s) t) ->
  tokens_unique (voting_users (run rs s)).
Proof.
  revert s. induction rs as [|r rs IH]; intros s Huniq Hnd Hfresh; [exact Huniq|].
  rewrite draws_cons in Hnd, Hfresh. apply NoDup_app in Hnd as (_ & Hdisj & Hnd).
  destruct (tokens_handle r s) as [Hheld Hstep].
  change (run (r :: rs) s) with (run rs (handle r s).2).
  apply IH; [|exact Hnd|].
  - apply Hstep; [exact Huniq|].
    intros t Ht. apply Hfresh, elem_of_app. now left.
  - intros t Ht Hholds. destruct (Hheld t Hholds) as [Hold|Hdrawn].
    + apply (Hfresh t); [apply elem_of_app; now right | exact Hold].
    + now apply (Hdisj t Hdrawn).
Qed.

Lemma demo_tokens_unique : tokens_unique (voting_users demo).
Proof.
  intros k1 k2 u1 u2 H1 H2 Heq.
  apply elem_of_map_to_list in H1, H2.
  vm_compute in H1, H2.
  apply list_elem_of_In in H1, H2. simpl in H1, H2.
  destruct H1 as [[= <- <-]|[[= <- <-]|[]]], H2 as [[= <- <-]|[[= <- <-]|[]]];
    solve [reflexivity | discriminate Heq].
Qed.

Lemma demo_opening_tokens_unique : tokens_unique (voting_users demo_opening).
Proof.
  intros k1 k2 u1 u2 H1 H2 _.
  apply elem_of_map_to_list in H1, H2.
  vm_compute in H1, H2.
  apply list_elem_of_In in H1, H2. simpl in H1, H2.
  destruct H1 as [[= <- <-]|[]], H2 as [[= <- <-]|[]]. reflexivity.
Qed.

(** C9 as stated fails: nothing in the code keeps a drawn token apart from
    the tokens stored.  When the requests for two students draw the same
    value, both voters are registered with it. *)
Lemma same_draw_same_token :
  voting_users
    (run [SendVotingEmail (mkPostData (PyStr "b03") PyNone 1) 5 "u3";
          SendVotingEmail (mkPostData (PyStr "b04") PyNone 1) 6 "u3"] demo_opening)
    !! (1, "b03") = Some (mkVotingUser "b03" "u3" false [] 1 5 (Some 5))
  /\ voting_users
       (run [SendVotingEmail (mkPostData (PyStr "b03") PyNone 1) 5 "u3";
             SendVotingEmail (mkPostData (PyStr "b04") PyNone 1) 6 "u3"] demo_opening)
       !! (1, "b04") = Some (mkVotingUser "b04" "u3" false [] 1 6 (Some 6))
  /\ ~ (forall rs s,
          tokens_unique (voting_users s) ->
          tokens_unique (voting_users (run rs s))).
Proof.
  assert (H3 : voting_users
                 (run [SendVotingEmail (mkPostData (PyStr "b03") PyNone 1) 5 "u3";
                       SendVotingEmail (mkPostData (PyStr "b04") PyNone 1) 6 "u3"]
                      demo_opening) !! (1, "b03")
               = Some (mkVotingUser "b03" "u3" false [] 1 5 (Some 5)))
    by (vm_compute; reflexivity).
  assert (H4 : voting_users
                 (run [SendVotingEmail (mkPostData (PyStr "b03") PyNone 1) 5 "u3";
                       SendVotingEmail (mkPostData (PyStr "b04") PyNone 1) 6 "u3"]
                      demo_opening) !! (1, "b04")
               = Some (mkVotingUser "b04" "u3" false [] 1 6 (Some 6)))
    by (vm_compute; reflexivity).
  split; [exact H3|]. split; [exact H4|].
  intros Hclaim.
  pose proof (Hclaim _ demo_opening demo_opening_tokens_unique _ _ _ _ H3 H4 eq_refl)
    as Heq.
  discriminate Heq.
Qed.

Lemma tokens_stay_unique_witness :
  tokens_unique
    (voting_users
       (run [SendVotingEmail (mkPostData (PyStr "b03") PyNone 1) 5 "u3";
             VoteWithData "u3" [(1, 2, 1)];
             SendVotingEmail (mkPostData (PyStr "b03") PyNone 2) 7 "u4"] demo)).
Proof.
  apply (tokens_stay_unique
           [SendVotingEmail (mkPostData (PyStr "b03") PyNone 1) 5 "u3";
            VoteWithData "u3" [(1, 2, 1)];
            SendVotingEmail (mkPostData (PyStr "b03") PyNone 2) 7 "u4"] demo).
  - exact demo_tokens_unique.
  - apply (bool_decide_unpack _). vm_compute. exact I.
  - intros t Ht (k & u & Hk & Htok).
    apply elem_of_map_to_list in Hk. vm_compute in Hk.
    apply list_elem_of_In in Hk, Ht. simpl in Hk, Ht.
    destruct Hk as [[= <- <-]|[[= <- <-]|[]]], Ht as [<-|[<-|[]]];
      discriminate Htok.
Defined.

(** * Further properties *)

(** ** The token resolver *)

Lemma find_token_unique (m : gmap (Z * string) VotingUser) tok key user :
  tokens_unique m ->
  m !! key = Some user ->
  token user = tok ->
  List.find (fun kv => String.eqb (token kv.2) tok) (map_to_list m)
  = Some (key, user).
Proof.
  intros Huniq Hk Htok.
  destruct (List.find _ (map_to_list m)) as [[key' user']|] eqn:Hfind.
  - apply find_some in Hfind as [Hin Heq]. simpl in Heq.
    apply String.eqb_eq in Heq.
    apply list_elem_of_In, elem_of_map_to_list in Hin.
    assert (key' = key) as -> by (apply (Huniq key' key user' user); congruence).
    congruence.
  - exfalso.
    pose proof (find_none _ _ Hfind (key, user)) as Hnone. simpl in Hnone.
    rewrite Htok, String.eqb_refl in Hnone.
    discriminate Hnone. now apply list_elem_of_In, elem_of_map_to_list.
Qed.

(** X1.  [_get_user_from_token] reads only: it returns with the store as
    it was; a voter that it returns is stored under the returned key and
    holds the token; it returns [None] exactly when no voter holds the
    token. *)
Theorem token_resolver tok s :
  exists r,
    _get_user_from_token tok s = (Return r, s)
    /\ (forall key user,
          r = Some (key, user) ->
          voting_users s !! key = Some user /\ token user = tok)
    /\ (r = None <-> ~ holds_token (voting_users s) tok).
Proof.
  unfold _get_user_from_token. eexists. split; [reflexivity|].
  destruct (List.find _ _) as [[key' user']|] eqn:Hfind.
  - apply find_some in Hfind as [Hin Heq]. simpl in Heq.
    apply String.eqb_eq in Heq.
    apply list_elem_of_In, elem_of_map_to_list in Hin.
    split; [now intros key user [= <- <-]|].
    split; [discriminate|]. intros Hnot. exfalso. apply Hnot.
    now exists key', user'.
  - split; [discriminate|]. split; [|reflexivity]. intros _ (key & user & Hk & Htok).
    pose proof (find_none _ _ Hfind (key, user)) as Hnone. simpl in Hnone.
    rewrite Htok, String.eqb_refl in Hnone.
    discriminate Hnone. now apply list_elem_of_In, elem_of_map_to_list.
Qed.

(** X2.  When tokens are unique, the token of a stored voter resolves to
    that voter and to no other. *)
Theorem token_resolves_holder tok s key user :
  tokens_unique (voting_users s) ->
  voting_users s !! key = Some user ->
  token user = tok ->
  _get_user_from_token tok s = (Return (Some (key, user)), s).
Proof.
  intros Huniq Hk Htok. unfold _get_user_from_token.
  now rewrite (find_token_unique _ tok key user Huniq Hk Htok).
Qed.

Lemma token_resolves_holder_witness :
  _get_user_from_token "t2" demo
  = (Return (Some ((1, "b02"), mkVotingUser "b02" "t2" true [(1, 1, 1)] 1 0 (Some 0))),
     demo).
Proof.
  apply (token_resolves_holder "t2" demo (1, "b02")
           (mkVotingUser "b02" "t2" true [(1, 1, 1)] 1 0 (Some 0))).
  - exact demo_tokens_unique.
  - vm_compute. reflexivity.
  - reflexivity.
Defined.

(** ** More on requests to vote *)

(** X3.  A request to vote with a token that no voter holds is refused
    with the 403 ['Invalid token'], whatever the ballot, and the store is
    as before. *)
Theorem vote_invalid_token tok candidate_ids s :
  ~ holds_token (voting_users s) tok ->
  vote_with_data tok candidate_ids s
  = (Raise (HTTPException 403 "Invalid token"), s).
Proof.
  intros Hnone. rewrite vote_with_data_unfold. unfold _get_user_from_token. simpl.
  destruct (List.find _ _) as [[key user]|] eqn:Hfind; [|reflexivity].
  exfalso. apply Hnone.
  apply find_some in Hfind as [Hin Heq]. simpl in Heq. apply String.eqb_eq in Heq.
  apply list_elem_of_In, elem_of_map_to_list in Hin. now exists key, user.
Qed.

Lemma vote_invalid_token_witness :
  vote_with_data "t9" [(1, 1, 1)] demo
  = (Raise (HTTPException 403 "Invalid token"), demo).
Proof.
  apply (vote_invalid_token "t9" [(1, 1, 1)] demo).
  intros (key & user & Hk & Htok).
  apply elem_of_map_to_list in Hk. vm_compute in Hk.
  apply list_elem_of_In in Hk. simpl in Hk.
  destruct Hk as [[= <- <-]|[[= <- <-]|[]]]; discriminate Htok.
Defined.

(** X4.  With unique tokens, the token of a voter who has voted cannot be
    used to vote again: the request raises and the store is as before; when
    the ballot passes the check, what is raised is the 403
    ['Transaction fail']. *)
Theorem no_second_vote tok candidate_ids s key user :
  tokens_unique (voting_users s) ->
  voting_users s !! key = Some user ->
  token user = tok ->
  voted user = true ->
  (exists e, vote_with_data tok candidate_ids s = (Raise e, s))
  /\ (validate candidate_ids s = (Return tt, s) ->
      vote_with_data tok candidate_ids s
      = (Raise (HTTPException 403 "Transaction fail"), s)).
Proof.
  intros Huniq Hk Htok Hvoted.
  assert (Hvote : _do_vote key candidate_ids s
                  = (Raise (Exception "Already voted"), s)).
  { unfold _do_vote, transactional, _do_vote_body, bind, get_voting_user.
    now rewrite Hk, Hvoted. }
  rewrite vote_with_data_unfold.
  unfold _get_user_from_token. simpl.
  rewrite (find_token_unique _ tok key user Huniq Hk Htok).
  pose proof (validate_store candidate_ids s) as Hstore.
  destruct (validate candidate_ids s) as [[[]|e] s1]; simpl in Hstore; subst s1.
  - rewrite Hvote. split; [eexists; reflexivity | reflexivity].
  - split; [eexists; reflexivity | discriminate].
Qed.

Lemma no_second_vote_witness :
  (exists e, vote_with_data "t2" [(1, 2, 1)] demo = (Raise e, demo))
  /\ vote_with_data "t2" [(1, 2, 1)] demo
     = (Raise (HTTPException 403 "Transaction fail"), demo).
Proof.
  pose proof (no_second_vote "t2" [(1, 2, 1)] demo (1, "b02")
                (mkVotingUser "b02" "t2" true [(1, 1, 1)] 1 0 (Some 0))
                demo_tokens_unique ltac:(vm_compute; reflexivity)
                eq_refl eq_refl) as [Hraise Hfail].
  split; [exact Hraise|]. apply Hfail. vm_compute. reflexivity.
Defined.

(** ** More on requests for the e-mail *)

(** What a request for the e-mail with a student id answers and leaves, by
    the voter found or created, the flag and the clock. *)
Lemma send_voting_email_outcome post_data now uuid s sid :
  post_student_id post_data = PyStr sid ->
  let key := (post_election_key post_data, lower sid) in
  let user := default (new_VotingUser (lower sid) uuid now) (voting_users s !! key) in
  let s1 := match voting_users s !! key with
            | Some _ => s
            | None => registered key (lower sid) uuid now s
            end in
  send_voting_email post_data now uuid s
  = if voted user then (Return (Text "already voted"), s1)
    else if (email_count user =? 0)
            || (parse_forced_send post_data && (_get_rest_wait_time user now =? 0))
    then match elections s !! key.1 with
         | Some election =>
             (Return (Json true (_get_rest_wait_time user now) false ""),
              emailed key user election now s1)
         | None => (Return (Text "send fail"), s1)
         end
    else (Return (Json false (_get_rest_wait_time user now) false ""), s1).
Proof.
  intros Hsid. cbv zeta. rewrite send_voting_email_unfold, Hsid.
  pose proof (eq_sym (lower_idem sid)) as Hlow.
  destruct (voting_users s !! (post_election_key post_data, lower sid))
    as [u|] eqn:Hget.
  - rewrite (get_or_create_existing s _ _ now uuid u Hlow Hget). simpl.
    destruct (voted u) eqn:Hvoted; [reflexivity|].
    destruct ((email_count u =? 0) || _); [|reflexivity].
    unfold _send_voting_email, bind, get_election. simpl.
    now destruct (elections s !! post_election_key post_data).
  - rewrite (get_or_create_fresh s _ _ now uuid Hlow Hget). simpl.
    unfold _send_voting_email, bind, get_election. simpl.
    now destruct (elections s !! post_election_key post_data).
Qed.

(** X5.  For post data that was read and whose ['election_key'] is there
    and decodes to a key (what [PostData] holds): [send_voting_email] lowers
    the student id before it looks the voter up, so the lower-case guard of
    the registry never fires, and with a string as student id the request
    returns an answer; with anything else as student id it raises
    [AttributeError] and the store is as before. *)
Theorem send_voting_email_returns post_data now uuid s :
  (forall sid, post_student_id post_data = PyStr sid ->
               exists response s',
                 send_voting_email post_data now uuid s = (Return response, s'))
  /\ ((forall sid, post_student_id post_data <> PyStr sid) ->
      send_voting_email post_data now uuid s = (Raise AttributeError, s)).
Proof.
  split.
  - intros sid Hsid.
    rewrite (send_voting_email_outcome post_data now uuid s sid Hsid).
    destruct (voted _); [eauto|].
    destruct ((email_count _ =? 0) || _); [|eauto].
    destruct (elections s !! _); eauto.
  - intros Hnot. unfold send_voting_email.
    destruct (post_student_id post_data) as [| b | n | sid]; try reflexivity.
    now destruct (Hnot sid).
Qed.

Lemma send_voting_email_returns_witness :
  (exists response s',
     send_voting_email (mkPostData (PyStr "B07") PyNone 1) 5 "u7" demo
     = (Return response, s'))
  /\ send_voting_email (mkPostData (PyInt 7) PyNone 1) 5 "u7" demo
     = (Raise AttributeError, demo).
Proof.
  split.
  - apply (proj1 (send_voting_email_returns
                    (mkPostData (PyStr "B07") PyNone 1) 5 "u7" demo) "B07").
    reflexivity.
  - apply (proj2 (send_voting_email_returns
                    (mkPostData (PyInt 7) PyNone 1) 5 "u7" demo)).
    intros sid. discriminate.
Defined.

(** X6.  The first request for a student of a stored election registers
    the voter under the lowered student id with the drawn token and queues
    one e-mail: the answer reports [is_sent] with no wait, the voter is
    stored with [email_count = 1], and the queue gains one task, addressed
    to the lowered id at [ntu.edu.tw], whose link ends in the token. *)
Theorem first_request_sends post_data now uuid s sid election :
  post_student_id post_data = PyStr sid ->
  voting_users s !! (post_election_key post_data, lower sid) = None ->
  elections s !! post_election_key post_data = Some election ->
  exists s',
    send_voting_email post_data now uuid s = (Return (Json true 0 false ""), s')
    /\ voting_users s' !! (post_election_key post_data, lower sid)
       = Some (mkVotingUser (lower sid) uuid false [] 1 now (Some now))
    /\ mail_queue s'
       = (mail_queue s
            ++ [mkTask (lower sid +:+ "@ntu.edu.tw") "NTUManVolley@gmail.com"
                       (title election) (lower sid)
                       ("http://ntuvb-allstar.appspot.com/vote/" +:+ uuid)])%list
    /\ candidates s' = candidates s.
Proof.
  intros Hsid Hnew Helection.
  rewrite (send_voting_email_outcome post_data now uuid s sid Hsid).
  rewrite Hnew. simpl. rewrite Helection.
  eexists. split; [reflexivity|]. split; [apply lookup_insert_eq|].
  split; reflexivity.
Qed.

Lemma first_request_sends_witness :
  exists s',
    send_voting_email (mkPostData (PyStr "B07") PyNone 1) 5 "u7" demo
    = (Return (Json true 0 false ""), s')
    /\ voting_users s' !! (1, "b07")
       = Some (mkVotingUser "b07" "u7" false [] 1 5 (Some 5))
    /\ mail_queue s'
       = (mail_queue demo
            ++ [mkTask "b07@ntu.edu.tw" "NTUManVolley@gmail.com" "allstar" "b07"
                       "http://ntuvb-allstar.appspot.com/vote/u7"])%list
    /\ candidates s' = candidates demo.
Proof.
  apply (first_request_sends (mkPostData (PyStr "B07") PyNone 1) 5 "u7" demo "B07"
           (mkElection "allstar")); vm_compute; reflexivity.
Defined.

(** X7.  A first request for a student under an election key without
    election answers ['send fail'] and queues nothing, but the voter stays
    registered, with the drawn token and no e-mail counted: the
    registration is committed before the e-mail fails. *)
Theorem first_request_without_election post_data now uuid s sid :
  post_student_id post_data = PyStr sid ->
  voting_users s !! (post_election_key post_data, lower sid) = None ->
  elections s !! post_election_key post_data = None ->
  exists s',
    send_voting_email post_data now uuid s = (Return (Text "send fail"), s')
    /\ voting_users s' !! (post_election_key post_data, lower sid)
       = Some (new_VotingUser (lower sid) uuid now)
    /\ mail_queue s' = mail_queue s.
Proof.
  intros Hsid Hnew Helection.
  rewrite (send_voting_email_outcome post_data now uuid s sid Hsid).
  rewrite Hnew. simpl. rewrite Helection.
  eexists. split; [reflexivity|]. split; [apply lookup_insert_eq | reflexivity].
Qed.

Lemma first_request_without_election_witness :
  exists s',
    send_voting_email (mkPostData (PyStr "b07") PyNone 9) 5 "u7" demo
    = (Return (Text "send fail"), s')
    /\ voting_users s' !! (9, "b07") = Some (new_VotingUser "b07" "u7" 5)
    /\ mail_queue s' = mail_queue demo.
Proof.
  apply (first_request_without_election
           (mkPostData (PyStr "b07") PyNone 9) 5 "u7" demo "b07");
    vm_compute; reflexivity.
Defined.

(** X8.  A forced request for a voter who has not voted, made once the
    wait is over, sends again, however many e-mails were sent before: the
    count goes up by one and one more task is queued.  There is no cap on
    the number of e-mails. *)
Theorem forced_request_sends_again post_data now uuid s sid user election :
  post_student_id post_data = PyStr sid ->
  post_forced_send post_data = PyStr "true" ->
  voting_users s !! (post_election_key post_data, lower sid) = Some user ->
  voted user = false ->
  0 < email_count user ->
  minutes_should_wait (email_count user) <= minutes_since (create_time user) now ->
  elections s !! post_election_key post_data = Some election ->
  exists s',
    send_voting_email post_data now uuid s = (Return (Json true 0 false ""), s')
    /\ (email_count <$> voting_users s' !! (post_election_key post_data, lower sid))
       = Some (email_count user + 1)
    /\ mail_queue s' = (mail_queue s ++ [voting_email user election])%list.
Proof.
  intros Hsid Hforced Hget Hvoted Hcount Hwait Helection.
  assert (Hrest : _get_rest_wait_time user now = 0).
  { unfold _get_rest_wait_time.
    destruct (0 <? email_count user); [|reflexivity].
    destruct (Z.ltb_spec (minutes_since (create_time user) now)
                         (minutes_should_wait (email_count user))); [lia | reflexivity]. }
  rewrite (send_voting_email_outcome post_data now uuid s sid Hsid).
  rewrite Hget. simpl. rewrite Hvoted, Hrest, Helection.
  unfold parse_forced_send. rewrite Hforced. simpl. rewrite orb_true_r.
  eexists. split; [reflexivity|]. split; [|reflexivity].
  simpl. now rewrite lookup_insert_eq.
Qed.

Lemma forced_request_sends_again_witness :
  exists s',
    send_voting_email (mkPostData (PyStr "B01") (PyStr "true") 1) 600000000 "u9" demo
    = (Return (Json true 0 false ""), s')
    /\ (email_count <$> voting_users s' !! (1, "b01")) = Some (1 + 1)
    /\ mail_queue s'
       = (mail_queue demo
            ++ [voting_email (mkVotingUser "b01" "t1" false [] 1 0 (Some 0))
                             (mkElection "allstar")])%list.
Proof.
  apply (forced_request_sends_again
           (mkPostData (PyStr "B01") (PyStr "true") 1) 600000000 "u9" demo "B01"
           (mkVotingUser "b01" "t1" false [] 1 0 (Some 0)) (mkElection "allstar"));
    try reflexivity; vm_compute; (reflexivity || discriminate).
Defined.

(** X9.  While the wait is not over, a request for a voter who has not
    voted and was sent an e-mail sends nothing, forced or not: the answer
    reports [is_sent = false] with the minutes left, which are positive,
    and the store is as before. *)
Theorem request_before_wait post_data now uuid s sid user :
  post_student_id post_data = PyStr sid ->
  voting_users s !! (post_election_key post_data, lower sid) = Some user ->
  voted user = false ->
  0 < email_count user ->
  minutes_since (create_time user) now < minutes_should_wait (email_count user) ->
  send_voting_email post_data now uuid s
  = (Return (Json false (minutes_should_wait (email_count user)
                         - minutes_since (create_time user) now) false ""), s)
  /\ 0 < minutes_should_wait (email_count user) - minutes_since (create_time user) now.
Proof.
  intros Hsid Hget Hvoted Hcount Hwait.
  assert (Hrest : _get_rest_wait_time user now
                  = minutes_should_wait (email_count user)
                    - minutes_since (create_time user) now).
  { unfold _get_rest_wait_time.
    destruct (Z.ltb_spec 0 (email_count user)); [|lia].
    destruct (Z.ltb_spec (minutes_since (create_time user) now)
                         (minutes_should_wait (email_count user))); [reflexivity | lia]. }
  split; [|lia].
  rewrite (send_voting_email_outcome post_data now uuid s sid Hsid).
  rewrite Hget. simpl. rewrite Hvoted, Hrest.
  assert ((email_count user =? 0) = false) as -> by (apply Z.eqb_neq; lia).
  assert ((minutes_should_wait (email_count user)
           - minutes_since (create_time user) now =? 0) = false) as ->
    by (apply Z.eqb_neq; lia).
  now rewrite andb_false_r.
Qed.

Lemma request_before_wait_witness :
  send_voting_email (mkPostData (PyStr "B01") (PyStr "true") 1) 420000000 "u9" demo
  = (Return (Json false
               (minutes_should_wait 1 - minutes_since 0 420000000) false ""), demo)
  /\ 0 < minutes_should_wait 1 - minutes_since 0 420000000.
Proof.
  apply (request_before_wait
           (mkPostData (PyStr "B01") (PyStr "true") 1) 420000000 "u9" demo "B01"
           (mkVotingUser "b01" "t1" false [] 1 0 (Some 0)));
    try reflexivity; vm_compute; reflexivity.
Defined.

(** ** What runs of requests keep *)

Lemma handle_steps r s : rtc step s (handle r s).2.
Proof.
  destruct r as [post_data now uuid | tok candidate_ids]; simpl.
  - destruct (post_student_id post_data) as [| b | n | sid] eqn:Hsid;
      try (unfold send_voting_email; rewrite Hsid; apply rtc_refl).
    rewrite (send_voting_email_outcome post_data now uuid s sid Hsid).
    set (key := (post_election_key post_data, lower sid)).
    assert (Hs1 : exists user s1,
               rtc step s s1 /\ voting_users s1 !! key = Some user
               /\ default (new_VotingUser (lower sid) uuid now) (voting_users s !! key)
                  = user
               /\ match voting_users s !! key with
                  | Some _ => s
                  | None => registered key (lower sid) uuid now s
                  end = s1).
    { destruct (voting_users s !! key) as [u|] eqn:Hget.
      - exists u, s. repeat split; [apply rtc_refl | exact Hget].
      - eexists _, _. repeat split.
        + apply rtc_once. now constructor.
        + apply lookup_insert_eq. }
    destruct Hs1 as (user & s1 & Hsteps & Hget1 & -> & ->).
    destruct (voted user) eqn:Hvoted; [exact Hsteps|].
    destruct ((email_count user =? 0) || _); [|exact Hsteps].
    destruct (elections s !! key.1) as [election|]; [|exact Hsteps].
    eapply rtc_r; [exact Hsteps|]. now constructor.
  - destruct (vote_with_data_cases tok candidate_ids s)
      as [[e ->]|(uk & u & Hget & Hvoted & Hall & Hvalid & ->)]; simpl.
    + apply rtc_refl.
    + apply rtc_once. now constructor.
Qed.

Lemma run_steps rs s : rtc step s (run rs s).
Proof.
  revert s. induction rs as [|r rs IH]; intros s; [apply rtc_refl|].
  change (run (r :: rs) s) with (run rs (handle r s).2).
  etrans; [apply handle_steps | apply IH].
Qed.

Lemma steps_ind (P : Store -> Prop) :
  (forall s s', step s s' -> P s -> P s') ->
  forall s s', rtc step s s' -> P s -> P s'.
Proof. intros Hstep s s' Hsteps. induction Hsteps; eauto. Qed.

(** X10.  Requests to vote never rewrite the record of a voter who has
    voted: after any sequence of requests to vote it is stored as it was,
    with the same ballot. *)
Theorem voted_record_frozen ballots s key user :
  voting_users s !! key = Some user ->
  voted user = true ->
  voting_users (cast_votes ballots s) !! key = Some user.
Proof.
  intros Hget Hvoted.
  apply (cast_votes_ind (fun s' => voting_users s' !! key = Some user));
    [|exact Hget].
  intros s0 key' user' ids Hget' Hvoted' _ _ Hkept. simpl.
  rewrite lookup_insert_ne; [exact Hkept | congruence].
Qed.

Lemma voted_record_frozen_witness :
  voting_users
    (cast_votes [("t2", [(1, 2, 1)]); ("t1", [(1, 1, 1)]); ("t2", [])] demo)
    !! (1, "b02")
  = Some (mkVotingUser "b02" "t2" true [(1, 1, 1)] 1 0 (Some 0)).
Proof.
  apply (voted_record_frozen
           [("t2", [(1, 2, 1)]); ("t1", [(1, 1, 1)]); ("t2", [])] demo (1, "b02")).
  - vm_compute. reflexivity.
  - reflexivity.
Defined.

(** X11.  No request removes a voter or rewrites who the voter is: after
    any run a stored voter is still stored under the same key with the same
    student id, token and time of creation. *)
Theorem voter_identity_kept rs s key user :
  voting_users s !! key = Some user ->
  exists user',
    voting_users (run rs s) !! key = Some user'
    /\ student_id user' = student_id user
    /\ token user' = token user
    /\ create_time user' = create_time user.
Proof.
  intros Hget.
  assert (Hstart : exists user',
             voting_users s !! key = Some user'
             /\ student_id user' = student_id user /\ token user' = token user
             /\ create_time user' = create_time user)
    by (now exists user).
  clear Hget. revert Hstart.
  apply (steps_ind
           (fun s' => exists user',
                        voting_users s' !! key = Some user'
                        /\ student_id user' = student_id user
                        /\ token user' = token user
                        /\ create_time user' = create_time user));
    [|apply run_steps].
  intros s0 s1 Hstep (u0 & Hget & Hsid & Htok & Htime).
  destruct Hstep as [s0 key' sid uuid now Hnone
                    | s0 key' user' election now Hget' Hvoted'
                    | s0 key' user' ids Hget' Hvoted' _ _]; simpl.
  - exists u0. rewrite lookup_insert_ne by congruence. now repeat split.
  - destruct (decide (key' = key)) as [->|Hne].
    + rewrite Hget in Hget'. injection Hget' as <-.
      exists (mail_sent u0 now). rewrite lookup_insert_eq. now repeat split.
    + exists u0. rewrite lookup_insert_ne by exact Hne. now repeat split.
  - destruct (decide (key' = key)) as [->|Hne].
    + rewrite Hget in Hget'. injection Hget' as <-.
      exists (cast u0 ids). rewrite lookup_insert_eq. now repeat split.
    + exists u0. rewrite lookup_insert_ne by exact Hne. now repeat split.
Qed.

Lemma voter_identity_kept_witness :
  exists user',
    voting_users
      (run [SendVotingEmail (mkPostData (PyStr "b01") (PyStr "true") 1) 900000000 "u9";
            VoteWithData "t1" [(1, 1, 1)]] demo) !! (1, "b01") = Some user'
    /\ student_id user' = "b01" /\ token user' = "t1" /\ create_time user' = 0.
Proof.
  apply (voter_identity_kept
           [SendVotingEmail (mkPostData (PyStr "b01") (PyStr "true") 1) 900000000 "u9";
            VoteWithData "t1" [(1, 1, 1)]] demo (1, "b01")
           (mkVotingUser "b01" "t1" false [] 1 0 (Some 0))).
  vm_compute. reflexivity.
Defined.

(** X12.  Requests neither add nor remove elections, positions or
    candidates, and no tally goes down: after any run the elections and the
    positions are the same, a key without candidate still has none, and a
    stored candidate is stored with at least the votes it had. *)
Theorem tallies_never_decrease rs s :
  elections (run rs s) = elections s
  /\ positions (run rs s) = positions s
  /\ forall k,
       match candidates s !! k with
       | Some c => exists c', candidates (run rs s) !! k = Some c'
                              /\ num_votes c <= num_votes c'
       | None => candidates (run rs s) !! k = None
       end.
Proof.
  apply (steps_ind
           (fun s' =>
              elections s' = elections s /\ positions s' = positions s
              /\ forall k,
                   match candidates s !! k with
                   | Some c => exists c', candidates s' !! k = Some c'
                                          /\ num_votes c <= num_votes c'
                   | None => candidates s' !! k = None
                   end)) with (s := s); [|apply run_steps|].
  - intros s1 s2 Hstep (He & Hp & Hc).
    assert (Hmono : elections s2 = elections s1 /\ positions s2 = positions s1
                    /\ forall k c1,
                         candidates s1 !! k = Some c1 ->
                         exists c2, candidates s2 !! k = Some c2
                                    /\ num_votes c1 <= num_votes c2).
    { destruct Hstep; simpl; repeat split; intros k c1 Hk;
        try (exists c1; split; [exact Hk | lia]).
      rewrite tally_votes_lookup, Hk. eexists. split; [reflexivity|]. simpl. lia. }
    assert (Hnone : forall k, candidates s1 !! k = None -> candidates s2 !! k = None).
    { destruct Hstep; simpl; intros k Hk; try exact Hk.
      now rewrite tally_votes_lookup, Hk. }
    destruct Hmono as (He2 & Hp2 & Hc2).
    split; [congruence|]. split; [congruence|].
    intros k. specialize (Hc k).
    destruct (candidates s !! k) as [c|]; [|now apply Hnone].
    destruct Hc as (c1 & Hc1 & Hle1).
    destruct (Hc2 k c1 Hc1) as (c2 & Hk2 & Hle2).
    exists c2. split; [exact Hk2 | lia].
  - repeat split. intros k. destruct (candidates s !! k) as [c|]; [|reflexivity].
    exists c. split; [reflexivity | lia].
Qed.

Lemma ballots_counted_step s s' : step s s' -> ballots_counted s -> ballots_counted s'.
Proof.
  intros Hstep Hcounted.
  destruct Hstep as [s key sid uuid now Hnone
                    | s key user election now Hget Hvoted
                    | s key user ids Hget Hvoted _ _]; intros k c Hk; simpl in Hk |- *.
  - rewrite map_sum_insert_None by exact Hnone. rewrite (Hcounted k c Hk).
    unfold counted at 2. simpl. lia.
  - rewrite (map_sum_insert_Some _ _ _ _ _ Hget), (Hcounted k c Hk).
    unfold counted. simpl. lia.
  - rewrite tally_votes_lookup in Hk.
    destruct (candidates s !! k) as [c0|] eqn:Hk0; [|discriminate].
    injection Hk as <-. simpl.
    rewrite (map_sum_insert_Some _ _ _ _ _ Hget), (Hcounted k c0 Hk0).
    unfold counted. simpl. rewrite Hvoted. lia.
Qed.

(** X13.  Requests to vote keep the tallies equal to the ballots: when
    every tally is the number of times its candidate stands in the ballots
    of the voters who have voted, this is still so after any sequence of
    requests to vote.  No vote is counted without a ballot, and no ballot
    goes uncounted. *)
Theorem tallies_match_ballots ballots s :
  ballots_counted s -> ballots_counted (cast_votes ballots s).
Proof.
  intros Hcounted. apply cast_votes_ind; [|exact Hcounted].
  intros s0 key user ids Hget Hvoted Hall Hvalid Hs0.
  apply (ballots_counted_step s0); [|exact Hs0].
  now apply step_vote.
Qed.

Lemma demo_ballots_counted : ballots_counted demo.
Proof.
  intros k c Hk. apply elem_of_map_to_list in Hk. vm_compute in Hk.
  apply list_elem_of_In in Hk. simpl in Hk.
  destruct Hk as [[= <- <-]|[[= <- <-]|[[= <- <-]|[[= <- <-]|[[= <- <-]|[]]]]]];
    vm_compute; reflexivity.
Qed.

Lemma tallies_match_ballots_witness :
  ballots_counted
    (cast_votes [("t1", [(1, 2, 1); (1, 2, 2); (1, 1, 2)]); ("t2", [(1, 1, 2)])] demo).
Proof.
  apply (tallies_match_ballots
           [("t1", [(1, 2, 1); (1, 2, 2); (1, 1, 2)]); ("t2", [(1, 1, 2)])] demo).
  exact demo_ballots_counted.
Defined.


(** ** More on the rate limiter *)

(** X15.  The minutes left to wait are never negative, are at most the
    required wait once the clock has reached the time of creation, and do
    not grow as the clock advances; each e-mail sent doubles the required
    wait. *)
Theorem rest_wait_time_bounds voting_user now now' :
  0 <= _get_rest_wait_time voting_user now
  /\ (0 < email_count voting_user ->
      create_time voting_user <= now ->
      _get_rest_wait_time voting_user now
      <= minutes_should_wait (email_count voting_user))
  /\ (now <= now' ->
      _get_rest_wait_time voting_user now' <= _get_rest_wait_time voting_user now)
  /\ (0 < email_count voting_user ->
      minutes_should_wait (email_count voting_user + 1)
      = 2 * minutes_should_wait (email_count voting_user)).
Proof.
  unfold _get_rest_wait_time, minutes_since.
  split; [|split; [|split]].
  - destruct (0 <? email_count voting_user); [|lia].
    destruct (Z.ltb_spec ((now - create_time voting_user) ÷ 60000000)
                         (minutes_should_wait (email_count voting_user))); lia.
  - intros Hcount Hcreated.
    assert (0 <= (now - create_time voting_user) ÷ 60000000)
      by (apply Z.quot_pos; lia).
    assert (0 <= minutes_should_wait (email_count voting_user))
      by (apply Z.mul_nonneg_nonneg; [lia | apply Z.pow_nonneg; lia]).
    destruct (0 <? email_count voting_user); [|lia].
    destruct (Z.ltb_spec ((now - create_time voting_user) ÷ 60000000)
                         (minutes_should_wait (email_count voting_user))); lia.
  - intros Hlater.
    assert ((now - create_time voting_user) ÷ 60000000
            <= (now' - create_time voting_user) ÷ 60000000)
      by (apply Z.quot_le_mono; lia).
    destruct (0 <? email_count voting_user); [|lia].
    destruct (Z.ltb_spec ((now - create_time voting_user) ÷ 60000000)
                         (minutes_should_wait (email_count voting_user))),
             (Z.ltb_spec ((now' - create_time voting_user) ÷ 60000000)
                         (minutes_should_wait (email_count voting_user))); lia.
  - intros Hcount. unfold minutes_should_wait.
    replace (email_count voting_user + 1 - 1) with (Z.succ (email_count voting_user - 1))
      by lia.
    rewrite Z.pow_succ_r by lia. lia.
Qed.

Lemma rest_wait_time_bounds_witness :
  _get_rest_wait_time (mkVotingUser "b01" "t1" false [] 3 0 (Some 0)) 420000000
  <= minutes_should_wait 3
  /\ _get_rest_wait_time (mkVotingUser "b01" "t1" false [] 3 0 (Some 0)) 960000000
     <= _get_rest_wait_time (mkVotingUser "b01" "t1" false [] 3 0 (Some 0)) 420000000
  /\ minutes_should_wait (3 + 1) = 2 * minutes_should_wait 3.
Proof.
  pose proof (rest_wait_time_bounds
                (mkVotingUser "b01" "t1" false [] 3 0 (Some 0)) 420000000 960000000)
    as (_ & Hle & Hmono & Hdouble).
  split; [apply Hle; vm_compute; (reflexivity || discriminate)|].
  split; [apply Hmono; vm_compute; discriminate|].
  apply Hdouble. reflexivity.
Defined.

(** ** More on the ballot check *)

Lemma insert_by_key_filter key x l :
  filter (fun c => _get_position_key c = key) (insert_by_key x l)
  = filter (fun c => _get_position_key c = key) (x :: l).
Proof.
  induction l as [|y l IH]; [reflexivity|].
  simpl. destruct (key_lt (_get_position_key y) (_get_position_key x)) eqn:Hlt;
    [|reflexivity].
  assert (Hne : _get_position_key y <> _get_position_key x).
  { intros Heq. rewrite Heq in Hlt.
    pose proof (proj2 (key_lt_false _ _) (key_le_refl (_get_position_key x))).
    congruence. }
  rewrite (filter_cons _ y), IH, !filter_cons.
  destruct (decide (_get_position_key y = key)) as [Hy|Hy],
           (decide (_get_position_key x = key)) as [Hx|Hx];
    try reflexivity. congruence.
Qed.

(** X16.  [sorted] with the position as key is a stable sort of the ballot:
    the result holds the same selections, positions never go down along
    it, and the selections under one position keep the order they had in
    the ballot. *)
Theorem sorted_stable l :
  sorted l ≡ₚ l
  /\ StronglySorted by_position (sorted l)
  /\ forall key,
       filter (fun c => _get_position_key c = key) (sorted l)
       = filter (fun c => _get_position_key c = key) l.
Proof.
  split; [apply sorted_perm|]. split; [apply sorted_sorted|].
  intros key. induction l as [|x l IH]; [reflexivity|].
  change (sorted (x :: l)) with (insert_by_key x (sorted l)).
  rewrite insert_by_key_filter, !filter_cons, IH. reflexivity.
Qed.

Lemma groupby_concat l : concat (groupby l).*2 = l.
Proof.
  induction l as [|x l IH]; [reflexivity|].
  simpl. destruct (groupby l) as [|[k g] gs].
  - simpl in *. now rewrite <- IH.
  - destruct (decide (_get_position_key x = k)); simpl in *; now rewrite <- IH.
Qed.

(** X17.  The groups that the check of [vote_with_data] walks through:
    every position selected in the ballot has a group, no position has two,
    every group is the list, never empty, of the selections of its position
    in the order of the ballot, and the groups put together are the sorted
    ballot. *)
Theorem groups_of_ballot keys :
  NoDup (groupby (sorted keys)).*1
  /\ (forall c, c ∈ keys ->
        exists g, (_get_position_key c, g) ∈ groupby (sorted keys))
  /\ (forall key g,
        (key, g) ∈ groupby (sorted keys) ->
        g <> [] /\ g = filter (fun c => _get_position_key c = key) keys)
  /\ concat (groupby (sorted keys)).*2 = sorted keys.
Proof.
  destruct (groupby_sorted (sorted keys) (sorted_sorted keys)) as [Hnd Hgroups].
  split; [exact Hnd|]. split; [|split; [|apply groupby_concat]].
  - intros c Hc. apply groupby_covers. now rewrite sorted_perm.
  - intros key g Hin.
    assert (Hg : g = filter (fun c => _get_position_key c = key) keys).
    { rewrite (Hgroups key g Hin).
      clear. induction keys as [|x l IH]; [reflexivity|].
      change (sorted (x :: l)) with (insert_by_key x (sorted l)).
      now rewrite insert_by_key_filter, !filter_cons, IH. }
    split; [|exact Hg].
    destruct (groupby_keys key g _ Hin) as (c & Hc & Hkey).
    rewrite sorted_perm in Hc.
    assert (Hcg : c ∈ g) by (rewrite Hg; now apply list_elem_of_filter).
    intros ->. inversion Hcg.
Qed.

(** X18.  The ballot check never writes, and it passes exactly on the
    ballots whose candidates are all stored and that select, under the
    position of each selection, a stored position and no more candidates
    than its [votes_per_person]. *)
Theorem ballot_check_exact candidate_keys s :
  (validate candidate_keys s).2 = s
  /\ ((validate candidate_keys s).1 = Return tt
      <-> (forall k, k ∈ candidate_keys -> is_Some (candidates s !! k))
          /\ forall c, c ∈ candidate_keys ->
               exists position,
                 positions s !! _get_position_key c = Some position
                 /\ Z.of_nat (selections (_get_position_key c) candidate_keys)
                    <= votes_per_person position).
Proof.
  pose proof (validate_store candidate_keys s) as Hstore.
  split; [exact Hstore|].
  rewrite <- (validate_return candidate_keys s).
  destruct (validate candidate_keys s) as [r s1]. simpl in *. subst s1.
  split; [now intros -> | now intros [= ->]].
Qed.

(** ** More on the vote transaction *)

(** X19.  The transaction is all or nothing.  For a voter who has not
    voted and a ballot with a key that has no candidate, the body has
    already marked the voter as having voted when it raises
    [AttributeError]; [_do_vote] raises the same and leaves the store as it
    was before the call. *)
Theorem do_vote_rolls_back s user_key user candidate_keys c :
  voting_users s !! user_key = Some user ->
  voted user = false ->
  c ∈ candidate_keys ->
  candidates s !! c = None ->
  _do_vote_body user_key candidate_keys s
  = (Raise AttributeError,
     set_voting_users (<[user_key := cast user candidate_keys]> (voting_users s)) s)
  /\ _do_vote user_key candidate_keys s = (Raise AttributeError, s).
Proof.
  intros Hget Hvoted Hc Hnone.
  assert (Hbody : _do_vote_body user_key candidate_keys s
                  = (Raise AttributeError,
                     set_voting_users
                       (<[user_key := cast user candidate_keys]> (voting_users s)) s)).
  { unfold _do_vote_body, bind, get_voting_user. rewrite Hget, Hvoted. simpl.
    now rewrite (count_votes_unresolved _ _ (fetch_unresolved _ _ _ Hc Hnone)). }
  split; [exact Hbody|].
  unfold _do_vote, transactional. now rewrite Hbody.
Qed.

Lemma do_vote_rolls_back_witness :
  _do_vote_body (1, "b01") [(1, 1, 1); (3, 1, 1)] demo
  = (Raise AttributeError,
     set_voting_users
       (<[(1, "b01") := cast (mkVotingUser "b01" "t1" false [] 1 0 (Some 0))
                             [(1, 1, 1); (3, 1, 1)]]> (voting_users demo)) demo)
  /\ _do_vote (1, "b01") [(1, 1, 1); (3, 1, 1)] demo = (Raise AttributeError, demo).
Proof.
  apply (do_vote_rolls_back demo (1, "b01")
           (mkVotingUser "b01" "t1" false [] 1 0 (Some 0))
           [(1, 1, 1); (3, 1, 1)] (3, 1, 1)).
  - vm_compute. reflexivity.
  - reflexivity.
  - right. left.
  - vm_compute. reflexivity.
Defined.

(** X20.  A committed ballot counts every occurrence: for a voter who has
    not voted and a ballot of stored candidates, in which a key may stand
    more than once, [_do_vote] returns, every candidate gains as many votes
    as its key occurs in the ballot, and nothing but the tallies and the
    record of the voter changes. *)
Theorem do_vote_counts_occurrences s user_key user candidate_keys :
  voting_users s !! user_key = Some user ->
  voted user = false ->
  (forall k, k ∈ candidate_keys -> is_Some (candidates s !! k)) ->
  exists s',
    _do_vote user_key candidate_keys s = (Return tt, s')
    /\ (forall k,
          candidates s' !! k
          = (fun c => mkCandidate (num_votes c + Z.of_nat (occurrences k candidate_keys)))
              <$> candidates s !! k)
    /\ (forall key, key <> user_key -> voting_users s' !! key = voting_users s !! key)
    /\ elections s' = elections s /\ positions s' = positions s
    /\ mail_queue s' = mail_queue s.
Proof.
  intros Hget Hvoted Hall.
  exists (committed user_key user candidate_keys s).
  split; [now apply do_vote_commit|].
  split; [intros k; apply tally_votes_lookup|].
  split; [|now repeat split].
  intros key Hne. simpl. now rewrite lookup_insert_ne.
Qed.

Lemma do_vote_counts_occurrences_witness :
  exists s',
    _do_vote (1, "b01") [(1, 2, 2); (1, 2, 2)] demo = (Return tt, s')
    /\ (forall k,
          candidates s' !! k
          = (fun c => mkCandidate
                        (num_votes c + Z.of_nat (occurrences k [(1, 2, 2); (1, 2, 2)])))
              <$> candidates demo !! k)
    /\ (forall key, key <> (1, "b01") ->
                    voting_users s' !! key = voting_users demo !! key)
    /\ elections s' = elections demo /\ positions s' = positions demo
    /\ mail_queue s' = mail_queue demo.
Proof.
  apply (do_vote_counts_occurrences demo (1, "b01")
           (mkVotingUser "b01" "t1" false [] 1 0 (Some 0)) [(1, 2, 2); (1, 2, 2)]).
  - vm_compute. reflexivity.
  - reflexivity.
  - intros k Hk. apply list_elem_of_In in Hk.
    destruct Hk as [<-|[<-|[]]]; vm_compute; eauto.
Defined.

(** ** The vote page *)

Lemma vote_with_data_success tok candidate_ids s response s' :
  vote_with_data tok candidate_ids s = (Return response, s') ->
  exists key user,
    voting_users s !! key = Some user /\ token user = tok /\ voted user = false
    /\ s' = committed key user candidate_ids s.
Proof.
  rewrite vote_with_data_unfold. unfold _get_user_from_token. simpl.
  destruct (List.find _ _) as [[key u0]|] eqn:Hfind; [|discriminate].
  apply find_some in Hfind as [Hin Htok]. simpl in Htok. apply String.eqb_eq in Htok.
  apply list_elem_of_In, elem_of_map_to_list in Hin.
  pose proof (validate_store candidate_ids s) as Hstore.
  destruct (validate candidate_ids s) as [[[]|e] s1]; simpl in Hstore; subst s1;
    [|discriminate].
  destruct (_do_vote key candidate_ids s) as [[[]|e] s2] eqn:Hvote; [|discriminate].
  intros [= _ <-].
  apply do_vote_return in Hvote as (user & Hget & Hvoted & _ & ->).
  exists key, user. repeat split; try assumption. congruence.
Qed.

(** X21.  With unique tokens, once a request to vote with a token has
    succeeded, the vote page for that token redirects to the page of the
    voter's election that says the vote is cast, and shows no ballot. *)
Theorem vote_page_after_vote tok candidate_ids s response s' :
  tokens_unique (voting_users s) ->
  vote_with_data tok candidate_ids s = (Return response, s') ->
  exists key user,
    voting_users s !! key = Some user /\ token user = tok
    /\ get_vote_page tok s' = (Return (RedirectVoted key.1), s').
Proof.
  intros Huniq Hvote.
  apply vote_with_data_success in Hvote as (key & user & Hget & Htok & Hvoted & ->).
  exists key, user. split; [exact Hget|]. split; [exact Htok|].
  unfold get_vote_page, bind, _get_user_from_token.
  rewrite (find_token_unique _ tok key (cast user candidate_ids)).
  - reflexivity.
  - simpl. now apply (tokens_unique_updated _ key user).
  - apply lookup_insert_eq.
  - exact Htok.
Qed.

Lemma vote_page_after_vote_witness :
  exists key user,
    voting_users demo !! key = Some user /\ token user = "t1"
    /\ get_vote_page "t1" (vote_with_data "t1" [(1, 1, 2)] demo).2
       = (Return (RedirectVoted key.1), (vote_with_data "t1" [(1, 1, 2)] demo).2).
Proof.
  apply (vote_page_after_vote "t1" [(1, 1, 2)] demo (Text "success")).
  - exact demo_tokens_unique.
  - vm_compute. reflexivity.
Defined.

(** X22.  The vote page reads only.  It never changes the store; a token
    that no voter holds gets the 404; with unique tokens, the token of a
    voter who has not voted gets the vote page of the voter's election,
    carrying the token. *)
Theorem vote_page_reads tok s :
  (get_vote_page tok s).2 = s
  /\ (~ holds_token (voting_users s) tok ->
      get_vote_page tok s = (Raise (HTTPException 404 ""), s))
  /\ (forall key user election,
        tokens_unique (voting_users s) ->
        voting_users s !! key = Some user ->
        token user = tok ->
        voted user = false ->
        elections s !! key.1 = Some election ->
        get_vote_page tok s = (Return (VotePage election tok), s)).
Proof.
  split; [|split].
  - unfold get_vote_page, bind, _get_user_from_token.
    destruct (List.find _ _) as [[key user]|]; [|reflexivity].
    destruct (voted user); [reflexivity|].
    unfold get_election. now destruct (elections s !! key.1).
  - intros Hnone. unfold get_vote_page, bind, _get_user_from_token.
    destruct (List.find _ _) as [[key user]|] eqn:Hfind; [|reflexivity].
    exfalso. apply Hnone.
    apply find_some in Hfind as [Hin Heq]. simpl in Heq. apply String.eqb_eq in Heq.
    apply list_elem_of_In, elem_of_map_to_list in Hin. now exists key, user.
  - intros key user election Huniq Hget Htok Hvoted Helection.
    unfold get_vote_page, bind, _get_user_from_token.
    rewrite (find_token_unique _ tok key user Huniq Hget Htok), Hvoted.
    unfold get_election. now rewrite Helection.
Qed.

Lemma vote_page_reads_witness :
  get_vote_page "t9" demo = (Raise (HTTPException 404 ""), demo)
  /\ get_vote_page "t1" demo = (Return (VotePage (mkElection "allstar") "t1"), demo).
Proof.
  destruct (vote_page_reads "t9" demo) as (_ & Hnone & _).
  destruct (vote_page_reads "t1" demo) as (_ & _ & Hpage).
  split.
  - apply Hnone. intros (key & user & Hk & Htok).
    apply elem_of_map_to_list in Hk. vm_compute in Hk.
    apply list_elem_of_In in Hk. simpl in Hk.
    destruct Hk as [[= <- <-]|[[= <- <-]|[]]]; discriminate Htok.
  - apply (Hpage (1, "b01") (mkVotingUser "b01" "t1" false [] 1 0 (Some 0))).
    + exact demo_tokens_unique.
    + vm_compute. reflexivity.
    + reflexivity.
    + reflexivity.
    + vm_compute. reflexivity.
Defined.

(** ** The sweep of the elections *)

Lemma sweep_fold now (l : list (Z * Backend.ElectionStatus))
    (m : gmap Z Backend.ElectionStatus) (c : Z) :
  NoDup l.*1 ->
  (forall k e, (k, e) ∈ l -> m !! k = Some e) ->
  let r := foldl (fun acc kv =>
                    if Backend.end_date kv.2 <? now
                    then (<[kv.1 := Backend.finish kv.2]> acc.1, acc.2 + 1)
                    else acc) (m, c) l in
  (forall k, r.1 !! k = if decide (k ∈ l.*1) then swept now <$> m !! k else m !! k)
  /\ r.2 = c + Z.of_nat (length (filter (fun kv => Backend.end_date kv.2 < now) l)).
Proof.
  revert m c. induction l as [|[k0 e0] l IH]; intros m c Hnd Hin; cbv zeta.
  - simpl. split; [|lia]. intros k.
    destruct (decide (k ∈ [])) as [H|]; [inversion H | reflexivity].
  - rewrite fmap_cons in Hnd. apply NoDup_cons in Hnd as [Hk0 Hnd].
    change ((k0, e0).1) with k0 in Hk0.
    assert (Hget0 : m !! k0 = Some e0) by (apply Hin; left).
    simpl foldl.
    set (acc := if Backend.end_date e0 <? now
                then (<[k0 := Backend.finish e0]> m, c + 1) else (m, c)).
    assert (Hacc : acc.1 !! k0 = Some (swept now e0)
                   /\ (forall k, k <> k0 -> acc.1 !! k = m !! k)
                   /\ acc.2 = c + Z.of_nat (length (filter
                                (fun kv => Backend.end_date kv.2 < now) [(k0, e0)]))).
    { unfold acc, swept. rewrite filter_cons, filter_nil. simpl.
      destruct (Z.ltb_spec (Backend.end_date e0) now).
      - rewrite decide_True by assumption. simpl.
        split; [apply lookup_insert_eq|]. split; [|lia].
        intros k Hne. now rewrite lookup_insert_ne.
      - rewrite decide_False by lia. simpl. split; [exact Hget0|]. split; [auto | lia]. }
    destruct Hacc as (Hacc0 & Hother & Hcount).
    destruct (IH acc.1 acc.2 Hnd) as [Hlookup Hlen].
    { intros k e Hke. rewrite Hother; [apply Hin; now right|].
      intros ->. apply Hk0. apply (list_elem_of_fmap_2 fst l (k0, e) Hke). }
    replace (acc.1, acc.2) with acc in Hlookup, Hlen by now destruct acc.
    split.
    + intros k. rewrite Hlookup, fmap_cons. change ((k0, e0).1) with k0.
      destruct (decide (k = k0)) as [->|Hne].
      * rewrite decide_False by exact Hk0. rewrite decide_True by left.
        now rewrite Hacc0, Hget0.
      * rewrite (Hother k Hne).
        destruct (decide (k ∈ l.*1)) as [Hl|Hl].
        -- rewrite decide_True by now right. reflexivity.
        -- rewrite decide_False; [reflexivity|].
           intros Hk. apply elem_of_cons in Hk as [?|?]; contradiction.
    + rewrite Hlen, Hcount.
      change ((k0, e0) :: l) with ([(k0, e0)] ++ l)%list.
      rewrite filter_app, length_app. lia.
Qed.

Lemma swept_finished now e : Backend.finished e = true -> swept now e = e.
Proof.
  intros Hfin. unfold swept, Backend.finish.
  destruct (Backend.end_date e <? now); [|reflexivity].
  destruct e as [d f]. simpl in *. now subst f.
Qed.

Lemma sweep_lookup now es k :
  (Backend._update_unended_elections now es).1 !! k = swept now <$> es !! k.
Proof.
  unfold Backend._update_unended_elections.
  set (qry := filter (fun kv => Backend.finished kv.2 = false) (map_to_list es)).
  assert (Hqry : forall k e, (k, e) ∈ qry
                             <-> es !! k = Some e /\ Backend.finished e = false).
  { intros k' e. unfold qry. rewrite list_elem_of_filter, elem_of_map_to_list.
    simpl. tauto. }
  destruct (sweep_fold now qry es 0) as [Hlookup _].
  - unfold qry. eapply NoDup_fmap_fst.
    + intros k' e1 e2 H1 H2. apply Hqry in H1 as [H1 _]. apply Hqry in H2 as [H2 _].
      congruence.
    + apply NoDup_filter, NoDup_map_to_list.
  - intros k' e Hke. now apply Hqry in Hke.
  - cbv zeta in Hlookup. rewrite Hlookup.
    destruct (decide (k ∈ qry.*1)) as [Hin|Hnin]; [reflexivity|].
    destruct (es !! k) as [e|] eqn:Hk; [|reflexivity]. simpl. f_equal. symmetry.
    apply swept_finished. destruct (Backend.finished e) eqn:Hfin; [reflexivity|].
    exfalso. apply Hnin. apply (list_elem_of_fmap_2 fst qry (k, e)). now apply Hqry.
Qed.

(** X23.  [_update_unended_elections] keeps every election and its end
    date, and leaves an election finished exactly when it was finished
    before or ended before [now]; it adds and removes no election, and
    never makes a finished election unfinished. *)
Theorem sweep_finishes_ended now es k :
  match es !! k with
  | Some elect =>
      exists elect',
        (Backend._update_unended_elections now es).1 !! k = Some elect'
        /\ Backend.end_date elect' = Backend.end_date elect
        /\ (Backend.finished elect' = true
            <-> Backend.finished elect = true \/ Backend.end_date elect < now)
  | None => (Backend._update_unended_elections now es).1 !! k = None
  end.
Proof.
  rewrite sweep_lookup.
  destruct (es !! k) as [elect|]; [|reflexivity].
  exists (swept now elect). split; [reflexivity|].
  unfold swept. destruct (Z.ltb_spec (Backend.end_date elect) now); simpl.
  - split; [reflexivity|]. split; auto.
  - split; [reflexivity|]. split; [auto | intros [?|?]; [assumption | lia]].
Qed.

(** X24.  The sweep returns the number of elections that were not finished
    and ended before [now], and a second sweep at the same time changes
    nothing and returns zero. *)
Theorem sweep_counts_once now es :
  (Backend._update_unended_elections now es).2
  = Z.of_nat (length (filter (fun kv => Backend.finished kv.2 = false
                                        /\ Backend.end_date kv.2 < now)
                             (map_to_list es)))
  /\ Backend._update_unended_elections now (Backend._update_unended_elections now es).1
     = ((Backend._update_unended_elections now es).1, 0).
Proof.
  assert (Hcount : forall es',
             (Backend._update_unended_elections now es').2
             = Z.of_nat (length (filter (fun kv => Backend.finished kv.2 = false
                                                   /\ Backend.end_date kv.2 < now)
                                        (map_to_list es')))).
  { intros es'. unfold Backend._update_unended_elections.
    set (qry := filter (fun kv => Backend.finished kv.2 = false) (map_to_list es')).
    destruct (sweep_fold now qry es' 0) as [_ Hlen].
    - unfold qry. eapply NoDup_fmap_fst.
      + intros k' e1 e2 H1 H2.
        apply list_elem_of_filter in H1 as [_ H1], H2 as [_ H2].
        apply elem_of_map_to_list in H1, H2. congruence.
      + apply NoDup_filter, NoDup_map_to_list.
    - intros k' e Hke. apply list_elem_of_filter in Hke as [_ Hke].
      now apply elem_of_map_to_list in Hke.
    - cbv zeta in Hlen. rewrite Hlen. unfold qry.
      rewrite list_filter_filter. rewrite Z.add_0_l. do 2 f_equal.
      apply list_filter_iff. intros [k' e]. simpl. tauto. }
  split; [apply Hcount|].
  set (es1 := (Backend._update_unended_elections now es).1).
  rewrite (surjective_pairing (Backend._update_unended_elections now es1)).
  f_equal.
  - apply map_eq. intros k. unfold es1. rewrite !sweep_lookup.
    destruct (es !! k) as [e|]; [|reflexivity]. simpl. f_equal.
    unfold swept. destruct (Backend.end_date e <? now) eqn:Hlt; simpl; now rewrite Hlt.
  - rewrite Hcount. rewrite filter_none; [reflexivity|].
    intros [k e1] Hin [Hfin Hended]. simpl in *.
    apply elem_of_map_to_list in Hin. unfold es1 in Hin.
    rewrite sweep_lookup in Hin.
    destruct (es !! k) as [e|]; [|discriminate]. injection Hin as <-.
    unfold swept in Hfin, Hended.
    destruct (Z.ltb_spec (Backend.end_date e) now); simpl in *; [discriminate | lia].
Qed.

Example sweep_demo :
  (Backend._update_unended_elections 200 demo_elections).2 = 1
  /\ (Backend._update_unended_elections 200 demo_elections).1
     = {[ 1 := Backend.mkElectionStatus 100 true;
          2 := Backend.mkElectionStatus 300 false;
          3 := Backend.mkElectionStatus 50 true ]}.
Proof. split; vm_compute; reflexivity. Qed.

(** ** Messages as dictionaries *)

Section request_to_dict.

Variable parse : pyval -> Backend.error + Backend.datetime.

Lemma copy_fields_other fields data0 data name :
  Backend.copy_fields parse fields data0 = inr data ->
  name ∉ fields.*1 ->
  data !! name = data0 !! name.
Proof.
  revert data0. induction fields as [|[name0 v0] fields IH]; intros data0 Hcopy Hnin.
  - simpl in Hcopy. congruence.
  - rewrite fmap_cons in Hnin. apply not_elem_of_cons in Hnin as [Hne Hnin].
    change ((name0, v0).1) with name0 in Hne.
    simpl in Hcopy. destruct (Backend.endswith name0 "_date").
    + destruct (match parse v0 with
                | inr date_val => Backend.remove_timezone date_val
                | inl e => inl e
                end) as [[]|t]; try discriminate.
      * now apply IH.
      * now apply IH.
      * rewrite (IH _ Hcopy Hnin). now rewrite lookup_insert_ne.
    + rewrite (IH _ Hcopy Hnin). now rewrite lookup_insert_ne.
Qed.


Lemma copy_fields_naive fields data0 name v date_val :
  (name, v) ∈ fields ->
  Backend.endswith name "_date" = true ->
  parse v = inr date_val ->
  Backend.utcoffset date_val = None ->
  exists e, Backend.copy_fields parse fields data0 = inl e.
Proof.
  intros Hin Hdate Hparse Hnaive. revert data0.
  induction fields as [|[name0 v0] fields IH]; intros data0; [inversion Hin|].
  apply elem_of_cons in Hin as [[= <- <-]|Hin].
  - simpl. rewrite Hdate, Hparse. unfold Backend.remove_timezone. rewrite Hnaive.
    eauto.
  - simpl. destruct (Backend.endswith name0 "_date").
    + destruct (match parse v0 with
                | inr date_val => Backend.remove_timezone date_val
                | inl e => inl e
                end) as [[]|t]; eauto.
    + eauto.
Qed.


(** X26.  [request_to_dict] fails, and returns no dictionary, for a message
    that has a date field whose value parses to a time without zone (the
    offset to subtract is [None]) and for a message that has no
    ['web_safe_key'] field; when the loop over such a message gets through,
    the failure is the [KeyError] of the [del]. *)
Theorem request_to_dict_fails request :
  (forall name v date_val,
     (name, v) ∈ request ->
     Backend.endswith name "_date" = true ->
     parse v = inr date_val ->
     Backend.utcoffset date_val = None ->
     exists e, Backend.request_to_dict parse request = inl e)
  /\ ("web_safe_key" ∉ request.*1 ->
      (exists e, Backend.request_to_dict parse request = inl e)
      /\ forall data,
           Backend.copy_fields parse request ∅ = inr data ->
           Backend.request_to_dict parse request
           = inl (Backend.KeyError "web_safe_key")).
Proof.
  split.
  - intros name v date_val Hin Hdate Hparse Hnaive.
    destruct (copy_fields_naive request ∅ name v date_val Hin Hdate Hparse Hnaive)
      as [e He].
    exists e. unfold Backend.request_to_dict. now rewrite He.
  - intros Hnin.
    assert (Hkey : forall data,
               Backend.copy_fields parse request ∅ = inr data ->
               Backend.request_to_dict parse request
               = inl (Backend.KeyError "web_safe_key")).
    { intros data Hcopy. unfold Backend.request_to_dict. rewrite Hcopy.
      now rewrite (copy_fields_other _ _ _ "web_safe_key" Hcopy Hnin), lookup_empty. }
    split; [|exact Hkey].
    destruct (Backend.copy_fields parse request ∅) as [e|data] eqn:Hcopy.
    + exists e. unfold Backend.request_to_dict. now rewrite Hcopy.
    + eexists. now apply (Hkey data).
Qed.

End request_to_dict.


Lemma request_to_dict_fails_witness :
  (exists e,
     Backend.request_to_dict demo_parse
       [("web_safe_key", PyNone); ("end_date", PyStr "2016-03-01T08:00:00")] = inl e)
  /\ Backend.request_to_dict demo_parse [("title", PyStr "allstar")]
     = inl (Backend.KeyError "web_safe_key").
Proof.
  split.
  - apply (proj1 (request_to_dict_fails demo_parse
                    [("web_safe_key", PyNone); ("end_date", PyStr "2016-03-01T08:00:00")])
             "end_date" (PyStr "2016-03-01T08:00:00")
             (Backend.mkDatetime 63592416000000000 None));
      [right; left | reflexivity..].
  - apply (proj2 (proj2 (request_to_dict_fails demo_parse [("title", PyStr "allstar")])
                    ltac:(intros Hin; apply list_elem_of_In in Hin;
                          destruct Hin as [Heq|[]]; discriminate Heq))
             {[ "title" := Backend.Plain (PyStr "allstar") ]}).
    vm_compute. reflexivity.
Defined.

(** ** From the e-mail to the ballot *)

(** X27.  The token that is mailed lets the student vote, once.  With
    unique tokens and a drawn token that no voter holds, after the first
    request for the e-mail of a student of a stored election, a request to
    vote with the drawn token and a ballot that passes the check answers
    ['success'] and stores the ballot on the voter registered under the
    lowered student id. *)
Theorem mailed_token_votes post_data now uuid s sid election candidate_ids :
  post_student_id post_data = PyStr sid ->
  voting_users s !! (post_election_key post_data, lower sid) = None ->
  elections s !! post_election_key post_data = Some election ->
  tokens_unique (voting_users s) ->
  ~ holds_token (voting_users s) uuid ->
  (forall k, k ∈ candidate_ids -> is_Some (candidates s !! k)) ->
  ballot_valid s candidate_ids ->
  exists s' voter,
    vote_with_data uuid candidate_ids (send_voting_email post_data now uuid s).2
    = (Return (Text "success"), s')
    /\ voting_users s' !! (post_election_key post_data, lower sid) = Some voter
    /\ student_id voter = lower sid
    /\ voted voter = true
    /\ votes voter = candidate_ids.
Proof.
  intros Hsid Hnew Helection Huniq Hfresh Hall Hvalid.
  rewrite (send_voting_email_outcome post_data now uuid s sid Hsid).
  rewrite Hnew. simpl. rewrite Helection. simpl.
  set (key := (post_election_key post_data, lower sid)).
  set (user := new_VotingUser (lower sid) uuid now).
  set (s1 := emailed key user election now (registered key (lower sid) uuid now s)).
  assert (Hget1 : voting_users s1 !! key = Some (mail_sent user now))
    by apply lookup_insert_eq.
  assert (Huniq1 : tokens_unique (voting_users s1)).
  { apply (tokens_unique_updated _ key user); [apply lookup_insert_eq | reflexivity|].
    apply (tokens_unique_created uuid (voting_users s)); [|exact Hfresh | exact Huniq].
    right. exists key, (lower sid), now. now split. }
  assert (Hcheck : validate candidate_ids s1 = (Return tt, s1)).
  { apply validate_return. split; [exact Hall | exact Hvalid]. }
  exists (committed key (mail_sent user now) candidate_ids s1),
         (cast (mail_sent user now) candidate_ids).
  split; [|split; [apply lookup_insert_eq | now repeat split]].
  rewrite vote_with_data_unfold.
  change ((_get_user_from_token uuid s1).1)
    with (Return (A := option (Z * string * VotingUser))
            (List.find (fun kv => String.eqb (token kv.2) uuid)
                       (map_to_list (voting_users s1)))).
  rewrite (find_token_unique _ uuid key (mail_sent user now) Huniq1 Hget1 eq_refl).
  rewrite Hcheck.
  now rewrite (do_vote_commit s1 key (mail_sent user now) candidate_ids Hget1 eq_refl Hall).
Qed.

Lemma mailed_token_votes_witness :
  exists s' voter,
    vote_with_data "u7" [(1, 2, 1); (1, 1, 2)]
      (send_voting_email (mkPostData (PyStr "B07") PyNone 1) 5 "u7" demo).2
    = (Return (Text "success"), s')
    /\ voting_users s' !! (1, "b07") = Some voter
    /\ student_id voter = "b07"
    /\ voted voter = true
    /\ votes voter = [(1, 2, 1); (1, 1, 2)].
Proof.
  apply (mailed_token_votes (mkPostData (PyStr "B07") PyNone 1) 5 "u7" demo "B07"
           (mkElection "allstar") [(1, 2, 1); (1, 1, 2)]).
  - reflexivity.
  - vm_compute. reflexivity.
  - vm_compute. reflexivity.
  - exact demo_tokens_unique.
  - intros (key & user & Hk & Htok).
    apply elem_of_map_to_list in Hk. vm_compute in Hk.
    apply list_elem_of_In in Hk. simpl in Hk.
    destruct Hk as [[= <- <-]|[[= <- <-]|[]]]; discriminate Htok.
  - intros k Hk. apply list_elem_of_In in Hk.
    destruct Hk as [<-|[<-|[]]]; vm_compute; eauto.
  - intros c Hc. apply list_elem_of_In in Hc.
    destruct Hc as [<-|[<-|[]]]; eexists; (split; [vm_compute; reflexivity|]);
      vm_compute; discriminate.
Defined.

(** ** Examples on the example election *)

Lemma token_resolver_witness :
  exists r, _get_user_from_token "t9" demo = (Return r, demo) /\ r = None.
Proof.
  destruct (token_resolver "t9" demo) as (r & Hr & _ & Hnone).
  exists r. split; [exact Hr|]. apply Hnone.
  intros (key & user & Hk & Htok).
  apply elem_of_map_to_list in Hk. vm_compute in Hk.
  apply list_elem_of_In in Hk. simpl in Hk.
  destruct Hk as [[= <- <-]|[[= <- <-]|[]]]; discriminate Htok.
Defined.

Lemma groups_of_ballot_witness :
  exists g,
    ((1, 2), g) ∈ groupby (sorted [(1, 2, 2); (1, 1, 1); (1, 2, 1)])
    /\ g = [(1, 2, 2); (1, 2, 1)].
Proof.
  destruct (groups_of_ballot [(1, 2, 2); (1, 1, 1); (1, 2, 1)])
    as (_ & Hcover & Hgroups & _).
  destruct (Hcover (1, 2, 2)) as [g Hg]; [left|].
  exists g. split; [exact Hg|].
  destruct (Hgroups _ g Hg) as [_ ->]. reflexivity.
Defined.

Lemma ballot_check_exact_witness :
  (validate [(1, 2, 1); (1, 2, 2)] demo).1 = Return tt.
Proof.
  apply (proj2 (ballot_check_exact [(1, 2, 1); (1, 2, 2)] demo)). split.
  - intros k Hk. apply list_elem_of_In in Hk.
    destruct Hk as [<-|[<-|[]]]; vm_compute; eauto.
  - intros c Hc. apply list_elem_of_In in Hc.
    destruct Hc as [<-|[<-|[]]]; eexists; (split; [vm_compute; reflexivity|]);
      vm_compute; discriminate.
Defined.

Lemma sweep_finishes_ended_witness :
  exists elect',
    (Backend._update_unended_elections 200 demo_elections).1 !! 1 = Some elect'
    /\ Backend.end_date elect' = 100
    /\ Backend.finished elect' = true.
Proof.
  pose proof (sweep_finishes_ended 200 demo_elections 1) as Hswept.
  replace (demo_elections !! 1) with (Some (Backend.mkElectionStatus 100 false))
    in Hswept by (vm_compute; reflexivity).
  destruct Hswept as (elect' & Hget & Hdate & Hfin).
  exists elect'. split; [exact Hget|]. split; [exact Hdate|].
  apply Hfin. right. simpl. lia.
Defined.
